(** * Voting system server: a shallow embedding of the REST handlers

    The server keeps three SQLite tables (candidates, votes, settings)
    and answers each request with a chain of database callbacks.  The
    tables are modelled as a record of lists and a finite map, every SQL
    statement as a function on that record, and every handler as a
    function from the store to a new store and an HTTP response.

    Conventions of the model:
    - Strings are sequences of code units below 256.  JavaScript's
      [trim] removes the white space of that range, SQLite's [LOWER]
      folds the ASCII letters only.
    - Request fields carry the types the client sends: names are
      strings, identifiers are integers, and a field may be absent.
      The [publish] flag is only ever coerced to a boolean, so it is an
      arbitrary JSON value.
    - Each handler receives the clock value [now] that
      [CURRENT_TIMESTAMP] yields, and a table [faults] telling which of
      its database statements fails and with which message.
    - One request runs to completion before the next one starts. *)

From Stdlib Require Import ZArith List Ascii String Bool Lia QArith Lqa SpecFloat Sorted.
From stdpp Require Import base list strings gmap pretty.

Local Open Scope string_scope.
Local Open Scope Z_scope.

(** ** Strings: [String.prototype.trim] and SQL [LOWER] *)

Module Str.

(** White space and line terminators of ECMAScript among the code units
    below 256: TAB, LF, VT, FF, CR, SP and NBSP. *)
Definition is_white (c : ascii) : bool :=
  let n := N_of_ascii c in
  ((9 <=? n) && (n <=? 13) || (n =? 32) || (n =? 160))%N.

Fixpoint trimStart (s : string) : string :=
  match s with
  | EmptyString => EmptyString
  | String c s' => if is_white c then trimStart s' else s
  end.

Definition is_empty (s : string) : bool :=
  match s with EmptyString => true | String _ _ => false end.

Fixpoint trimEnd (s : string) : string :=
  match s with
  | EmptyString => EmptyString
  | String c s' =>
      let t := trimEnd s' in
      if is_white c && is_empty t then EmptyString else String c t
  end.

(** [s.trim()] *)
Definition trim (s : string) : string := trimEnd (trimStart s).

(** SQLite's built-in [LOWER]: only [A]..[Z] are folded. *)
Definition lower_char (c : ascii) : ascii :=
  let n := N_of_ascii c in
  if ((65 <=? n) && (n <=? 90))%N then ascii_of_N (n + 32) else c.

Fixpoint LOWER (s : string) : string :=
  match s with
  | EmptyString => EmptyString
  | String c s' => String (lower_char c) (LOWER s')
  end.

End Str.

(** ** JavaScript values met in request and response bodies *)

Inductive jsval :=
| JUndefined
| JNull
| JBool (b : bool)
| JNum (n : Z)
| JStr (s : string)
| JObject.

(** [ToBoolean]: what [x ? a : b] and [!x] test. *)
Definition truthy (v : jsval) : bool :=
  match v with
  | JUndefined | JNull => false
  | JBool b => b
  | JNum n => negb (n =? 0)
  | JStr s => negb (Str.is_empty s)
  | JObject => true
  end.

(** [!name] for an optional string field. *)
Definition not_string (x : option string) : bool :=
  match x with
  | None => true
  | Some s => Str.is_empty s
  end.

(** [!candidateId] for an optional integer field. *)
Definition not_int (x : option Z) : bool :=
  match x with
  | None => true
  | Some n => n =? 0
  end.

(** ** The tables *)

Record candidate := mkCandidate {
  c_id : Z;
  c_name : string;
  c_position : Z;
  c_created_at : Z
}.

Record vote := mkVote {
  v_id : Z;
  v_voter_name : string;
  v_candidate_id : Z;
  v_timestamp : Z
}.

Record setting := mkSetting {
  s_value : string;
  s_updated_at : Z
}.

(** [candidate_seq] and [vote_seq] are the AUTOINCREMENT counters: the
    largest row id ever handed out by each table. *)
Record store := mkStore {
  candidates : list candidate;
  votes : list vote;
  settings : gmap string setting;
  candidate_seq : Z;
  vote_seq : Z
}.

Definition with_candidates (st : store) (cs : list candidate) (seq : Z) : store :=
  mkStore cs (votes st) (settings st) seq (vote_seq st).

Definition with_votes (st : store) (vs : list vote) (seq : Z) : store :=
  mkStore (candidates st) vs (settings st) (candidate_seq st) seq.

Definition with_settings (st : store) (m : gmap string setting) : store :=
  mkStore (candidates st) (votes st) m (candidate_seq st) (vote_seq st).

(** The database right after the tables are created, before seeding. *)
Definition empty_store : store := mkStore [] [] ∅ 0 0.

(** ** Double-precision arithmetic of the percentage computation

    A non-negative binary64 number is [mant * 2^expo].  Division and
    multiplication return the double nearest to the exact result, ties
    to the even mantissa, as IEEE 754 prescribes.  The exponent range is
    not modelled: vote counts stay below 2^53, so every value met here
    lies between 2^-53 and 100. *)

Module Num.

Record double := mkDouble { mant : Z; expo : Z }.

(** Numerator and denominator of the exact value. *)
Definition num (x : double) : Z := mant x * 2 ^ Z.max 0 (expo x).
Definition den (x : double) : Z := 2 ^ Z.max 0 (- expo x).

(** The integer nearest to [a / b], ties to even ([0 < b]). *)
Definition round_half_even (a b : Z) : Z :=
  let q := a / b in
  let r := a mod b in
  if 2 * r <? b then q
  else if b <? 2 * r then q + 1
  else if Z.even q then q else q + 1.

(** The double nearest to [a / b] for [0 <= a] and [0 < b]: the
    exponent is chosen so that the scaled quotient has 53 bits. *)
Definition nearest (a b : Z) : double :=
  if a =? 0 then mkDouble 0 0
  else
    let e0 := Z.log2 a - Z.log2 b - 52 in
    let e :=
      if 2 ^ 52 * (b * 2 ^ Z.max 0 e0) <=? a * 2 ^ Z.max 0 (- e0)
      then e0 else e0 - 1 in
    mkDouble (round_half_even (a * 2 ^ Z.max 0 (- e)) (b * 2 ^ Z.max 0 e)) e.

(** An integer read as a Number. *)
Definition of_int (n : Z) : double := nearest n 1.

(** [x / y] and [x * y] *)
Definition div (x y : double) : double := nearest (num x * den y) (den x * num y).
Definition mul (x y : double) : double := nearest (num x * num y) (den x * den y).

(** [x.toFixed(1)], as a number of tenths: the integer [n] for which
    [n / 10 - x] is closest to zero, the larger one when there are two. *)
Definition toFixed1 (x : double) : Z := (20 * num x + den x) / (2 * den x).

(** The exact value, for stating bounds. *)
Definition value (x : double) : Q := inject_Z (num x) / inject_Z (den x).

End Num.

(** ** Rows of the two join queries *)

(** A row of the results query: a candidate with its number of votes. *)
Record tally_row := mkTallyRow {
  t_id : Z;
  t_name : string;
  t_position : Z;
  t_vote_count : Z
}.

(** A row of the voters query. *)
Record voter_row := mkVoterRow {
  w_voter_name : string;
  w_candidate_name : string;
  w_timestamp : Z
}.

(** ** SQL statements *)

Module Sql.

(** [ORDER BY position] *)
Fixpoint insert_by_position (c : candidate) (l : list candidate) : list candidate :=
  match l with
  | [] => [c]
  | d :: l' =>
      if c_position c <=? c_position d then c :: l
      else d :: insert_by_position c l'
  end.

Definition order_by_position (l : list candidate) : list candidate :=
  foldr insert_by_position [] l.

(** [SELECT * FROM candidates ORDER BY position] *)
Definition select_candidates (st : store) : list candidate :=
  order_by_position (candidates st).

(** [SELECT MAX(position) as maxPos FROM candidates]: NULL on an empty
    table. *)
Definition max_position (st : store) : option Z :=
  foldr (fun c acc =>
           Some (match acc with
                 | None => c_position c
                 | Some m => Z.max (c_position c) m
                 end))
        None (candidates st).

Definition unique_position_failed : string :=
  "SQLITE_CONSTRAINT: UNIQUE constraint failed: candidates.position".

(** [INSERT INTO candidates (name, position) VALUES (?, ?)]: the new row
    gets the next AUTOINCREMENT id; the UNIQUE index on [position]
    rejects a position already in the table.  Yields the new table and
    [lastID]. *)
Definition insert_candidate (name : string) (position now : Z) (st : store)
  : string + store * Z :=
  if existsb (fun c => c_position c =? position) (candidates st)
  then inl unique_position_failed
  else
    let id := candidate_seq st + 1 in
    inr (with_candidates st (candidates st ++ [mkCandidate id name position now]) id, id).

(** [UPDATE candidates SET name = ? WHERE id = ?], with [changes]. *)
Definition update_name (id : Z) (name : string) (st : store) : store * Z :=
  (with_candidates st
     (map (fun c => if c_id c =? id
                    then mkCandidate (c_id c) name (c_position c) (c_created_at c)
                    else c)
          (candidates st))
     (candidate_seq st),
   Z.of_nat (length (filter (fun c => c_id c = id) (candidates st)))).

(** [SELECT COUNT( * ) as voteCount FROM votes WHERE candidate_id = ?] *)
Definition count_votes (id : Z) (st : store) : Z :=
  Z.of_nat (length (filter (fun v => v_candidate_id v = id) (votes st))).

(** [DELETE FROM candidates WHERE id = ?], with [changes]. *)
Definition delete_candidate (id : Z) (st : store) : store * Z :=
  (with_candidates st (filter (fun c => c_id c ≠ id) (candidates st)) (candidate_seq st),
   Z.of_nat (length (filter (fun c => c_id c = id) (candidates st)))).

(** [SELECT position FROM candidates WHERE id = ?] as a scalar
    subquery: the first row's value, NULL when there is no row. *)
Definition position_of (id : Z) (st : store) : option Z :=
  c_position <$> find (fun c => c_id c =? id) (candidates st).

(** [UPDATE candidates SET position = position - 1
     WHERE position > (SELECT position FROM candidates WHERE id = ?)].
    A comparison with NULL is never true, so no row is touched when the
    subquery finds nothing. *)
Definition shift_positions_after (id : Z) (st : store) : store :=
  match position_of id st with
  | None => st
  | Some p =>
      with_candidates st
        (map (fun c => if p <? c_position c
                       then mkCandidate (c_id c) (c_name c) (c_position c - 1) (c_created_at c)
                       else c)
             (candidates st))
        (candidate_seq st)
  end.

(** [SELECT id FROM votes WHERE LOWER(voter_name) = LOWER(?)], first
    row only ([db.get]). *)
Definition find_voter (name : string) (st : store) : option vote :=
  find (fun v => bool_decide (Str.LOWER (v_voter_name v) = Str.LOWER name)) (votes st).

(** [SELECT id FROM candidates WHERE id = ?] *)
Definition find_candidate (id : Z) (st : store) : option candidate :=
  find (fun c => c_id c =? id) (candidates st).

(** [INSERT INTO votes (voter_name, candidate_id) VALUES (?, ?)], with
    [lastID]; the timestamp defaults to [CURRENT_TIMESTAMP]. *)
Definition insert_vote (name : string) (cid now : Z) (st : store) : store * Z :=
  let id := vote_seq st + 1 in
  (with_votes st (votes st ++ [mkVote id name cid now]) id, id).

(** [DELETE FROM votes], with [changes]. *)
Definition delete_votes (st : store) : store * Z :=
  (with_votes st [] (vote_seq st), Z.of_nat (length (votes st))).

(** [UPDATE settings SET value = ?, updated_at = CURRENT_TIMESTAMP
     WHERE key = ?] *)
Definition update_setting_at (key value : string) (now : Z) (st : store) : store :=
  with_settings st (alter (fun _ => mkSetting value now) key (settings st)).

(** [UPDATE settings SET value = ? WHERE key = ?] *)
Definition update_setting (key value : string) (st : store) : store :=
  with_settings st (alter (fun s => mkSetting value (s_updated_at s)) key (settings st)).

(** [INSERT OR IGNORE INTO settings (key, value) VALUES (?, ?)] *)
Definition insert_setting_or_ignore (key value : string) (now : Z) (st : store) : store :=
  match settings st !! key with
  | Some _ => st
  | None => with_settings st (<[key := mkSetting value now]> (settings st))
  end.

(** The results query: every candidate, left-joined with its votes and
    grouped, in position order. *)
Definition select_results (st : store) : list tally_row :=
  map (fun c => mkTallyRow (c_id c) (c_name c) (c_position c) (count_votes (c_id c) st))
      (select_candidates st).

(** [ORDER BY v.timestamp DESC] *)
Fixpoint insert_by_time (w : voter_row) (l : list voter_row) : list voter_row :=
  match l with
  | [] => [w]
  | x :: l' =>
      if w_timestamp x <=? w_timestamp w then w :: l
      else x :: insert_by_time w l'
  end.

(** The voters query: votes joined with the candidate they name, most
    recent first. *)
Definition select_voters (st : store) : list voter_row :=
  foldr insert_by_time []
    (flat_map (fun v =>
                 map (fun c => mkVoterRow (v_voter_name v) (c_name c) (v_timestamp v))
                     (filter (fun c => c_id c = v_candidate_id v) (candidates st)))
              (votes st)).


End Sql.

(** ** Rows and bodies sent back to the client *)

(** The [percentage] field is the number [0] when nobody has voted and
    the string produced by [toFixed(1)] otherwise; [PFixed1 n] stands
    for the string that writes [n / 10] with one decimal. *)
Inductive percentage :=
| PNumber (n : Z)
| PFixed1 (tenths : Z).

(** [{...candidate, percentage}] *)
Record result := mkResult {
  r_row : tally_row;
  r_percentage : percentage
}.

Inductive body :=
| BError (error : string)
| BCandidates (rows : list candidate)
| BCandidateAdded (id : Z) (name : string) (position : Z) (message : string)
| BMessage (message : string)
| BVoteCast (id : Z) (message : string)
| BResults (results : list result) (totalVotes : Z) (winner : option result) (tie : bool)
| BVoters (voters : list voter_row)
| BHasVoted (hasVoted : bool)
| BPublished (message : string) (published : jsval)
| BSettings (values : gmap string jsval)
| BReset (message : string) (deletedCount : Z).

Record response := Resp { status : Z; payload : body }.

(** The text [toFixed(1)] writes for a number of tenths. *)
Definition fixed1_text (n : Z) : string :=
  pretty (n / 10) +:+ "." +:+ pretty (n mod 10).




(** ** Numbers that may be [-Infinity] *)

Inductive number := NegInfinity | Int (n : Z).

(** [Math.max(...l)]: [-Infinity] without arguments. *)
Definition Math_max (l : list Z) : number :=
  foldr (fun x acc =>
           match acc with
           | NegInfinity => Int x
           | Int m => Int (Z.max x m)
           end)
        NegInfinity l.

(** [x === m] *)
Definition strict_eq (x : Z) (m : number) : bool :=
  match m with
  | NegInfinity => false
  | Int n => x =? n
  end.

(** [m > 0] *)
Definition positive_number (m : number) : bool :=
  match m with
  | NegInfinity => false
  | Int n => 0 <? n
  end.

(** ** Database calls and their callbacks *)

(** [faults k = Some msg]: the [k]-th statement a handler issues fails
    and hands [msg] to its callback as [err.message]. *)
Definition faults := nat -> option string.

Definition no_faults : faults := fun _ => None.

Definition fail_at (k : nat) (msg : string) : faults :=
  fun j => if Nat.eqb j k then Some msg else None.

(** The outcome of statement [k]: the injected failure, or else what the
    statement computes on the tables. *)
Definition stmt {A} (f : faults) (k : nat) (r : string + A) : string + A :=
  match f k with
  | Some e => inl e
  | None => r
  end.

(** Every callback of the server starts with
    [if (err) { res.status(500).json({ error: err.message }); return; }]. *)
Definition callback {A} (st : store) (r : string + A)
    (ok : A -> store * response) : store * response :=
  match r with
  | inl e => (st, Resp 500 (BError e))
  | inr a => ok a
  end.

(** The error-handling middleware, reached when a handler throws. *)
Definition error_middleware : response :=
  Resp 500 (BError "Something went wrong!").

(** ** The handlers *)

(** The name, when the guard [!name || name.trim().length === 0] lets
    the request through. *)
Definition required_name (name : option string) : option string :=
  match name with
  | None => None
  | Some s =>
      if not_string name || (String.length (Str.trim s) =? 0)%nat then None
      else Some s
  end.

(** [(row.maxPos || 0) + 1] *)
Definition next_position (maxPos : option Z) : Z :=
  match maxPos with
  | None => 0
  | Some p => if p =? 0 then 0 else p
  end + 1.

(** [GET /api/candidates] *)
Definition listCandidates (f : faults) (st : store) : store * response :=
  callback st (stmt f 0 (inr (Sql.select_candidates st))) (fun rows =>
    (st, Resp 200 (BCandidates rows))).

(** [POST /api/candidates] *)
Definition addCandidate (f : faults) (now : Z) (name : option string) (st : store)
  : store * response :=
  match required_name name with
  | None => (st, Resp 400 (BError "Candidate name is required"))
  | Some s =>
      callback st (stmt f 0 (inr (Sql.max_position st))) (fun maxPos =>
        let nextPosition := next_position maxPos in
        callback st (stmt f 1 (Sql.insert_candidate (Str.trim s) nextPosition now st))
          (fun '(st', lastID) =>
             (st', Resp 200 (BCandidateAdded lastID (Str.trim s) nextPosition
                               "Candidate added successfully"))))
  end.

(** [PUT /api/candidates/:id] *)
Definition updateCandidateName (f : faults) (id : Z) (name : option string) (st : store)
  : store * response :=
  match required_name name with
  | None => (st, Resp 400 (BError "Candidate name is required"))
  | Some s =>
      callback st (stmt f 0 (inr (Sql.update_name id (Str.trim s) st)))
        (fun '(st', changes) =>
           if changes =? 0 then (st', Resp 404 (BError "Candidate not found"))
           else (st', Resp 200 (BMessage "Candidate updated successfully")))
  end.

(** [DELETE /api/candidates/:id].  The last UPDATE has no callback: the
    answer does not wait for it and its failure goes unnoticed. *)
Definition removeCandidate (f : faults) (id : Z) (st : store) : store * response :=
  callback st (stmt f 0 (inr (Sql.count_votes id st))) (fun voteCount =>
    if 0 <? voteCount
    then (st, Resp 400 (BError
            "Cannot delete candidate with existing votes. Reset votes first."))
    else
      callback st (stmt f 1 (inr (Sql.delete_candidate id st)))
        (fun '(st1, changes) =>
           if changes =? 0 then (st1, Resp 404 (BError "Candidate not found"))
           else
             let st2 :=
               match stmt f 2 (inr (Sql.shift_positions_after id st1)) with
               | inl _ => st1
               | inr st2 => st2
               end in
             (st2, Resp 200 (BMessage "Candidate deleted successfully")))).

(** [POST /api/votes] *)
Definition castVote (f : faults) (now : Z) (voterName : option string)
    (candidateId : option Z) (st : store) : store * response :=
  match voterName, candidateId with
  | Some vn, Some cid =>
      if not_string voterName || not_int candidateId
      then (st, Resp 400 (BError "Voter name and candidate ID are required"))
      else
        callback st (stmt f 0 (inr (Sql.find_voter (Str.trim vn) st))) (fun row =>
          match row with
          | Some _ => (st, Resp 400 (BError "You have already voted!"))
          | None =>
              callback st (stmt f 1 (inr (Sql.find_candidate cid st))) (fun cand =>
                match cand with
                | None => (st, Resp 404 (BError "Candidate not found"))
                | Some _ =>
                    callback st (stmt f 2 (inr (Sql.insert_vote (Str.trim vn) cid now st)))
                      (fun '(st', lastID) =>
                         (st', Resp 200 (BVoteCast lastID "Vote cast successfully")))
                end)
          end)
  | _, _ => (st, Resp 400 (BError "Voter name and candidate ID are required"))
  end.

(** The percentage of one candidate:
    [totalVotes > 0 ? ((vote_count / totalVotes) * 100).toFixed(1) : 0] *)
Definition percentage_of (vote_count totalVotes : Z) : percentage :=
  if 0 <? totalVotes
  then PFixed1 (Num.toFixed1
                  (Num.mul (Num.div (Num.of_int vote_count) (Num.of_int totalVotes))
                           (Num.of_int 100)))
  else PNumber 0.

(** What the callback of the results query computes from its rows. *)
Definition summarize (rows : list tally_row) : body :=
  let totalVotes := foldl (fun sum c => sum + t_vote_count c) 0 rows in
  let results := map (fun c => mkResult c (percentage_of (t_vote_count c) totalVotes)) rows in
  let maxVotes := Math_max (map (fun r => t_vote_count (r_row r)) results) in
  let winners :=
    List.filter (fun r => strict_eq (t_vote_count (r_row r)) maxVotes
                          && positive_number maxVotes) results in
  BResults results totalVotes
    (if (length winners =? 1)%nat then head winners else None)
    ((1 <? length winners)%nat && positive_number maxVotes).

(** [GET /api/results] *)
Definition tally (f : faults) (st : store) : store * response :=
  callback st (stmt f 0 (inr (Sql.select_results st))) (fun rows =>
    (st, Resp 200 (summarize rows))).

(** [GET /api/voters] *)
Definition listVoters (f : faults) (st : store) : store * response :=
  callback st (stmt f 0 (inr (Sql.select_voters st))) (fun rows =>
    (st, Resp 200 (BVoters rows))).

(** [GET /api/voters/:name/check] *)
Definition hasVoted (f : faults) (voterName : string) (st : store) : store * response :=
  callback st (stmt f 0 (inr (Sql.find_voter voterName st))) (fun row =>
    (st, Resp 200 (BHasVoted (bool_decide (is_Some row))))).

(** [POST /api/results/publish] *)
Definition setResultsPublished (f : faults) (now : Z) (publish : jsval) (st : store)
  : store * response :=
  callback st
    (stmt f 0 (inr (Sql.update_setting_at "results_published"
                      (if truthy publish then "true" else "false") now st)))
    (fun st' =>
       (st', Resp 200 (BPublished
                         (if truthy publish then "Results published successfully"
                          else "Results unpublished successfully")
                         publish))).

(** [row.value === 'true' ? true : row.value === 'false' ? false : row.value] *)
Definition setting_json (s : setting) : jsval :=
  if bool_decide (s_value s = "true") then JBool true
  else if bool_decide (s_value s = "false") then JBool false
  else JStr (s_value s).

(** [GET /api/settings] *)
Definition getSettings (f : faults) (st : store) : store * response :=
  callback st (stmt f 0 (inr (settings st))) (fun rows =>
    (st, Resp 200 (BSettings (setting_json <$> rows)))).

(** [DELETE /api/votes]: [deletedCount] is the [changes] of the DELETE. *)
Definition resetVotes (f : faults) (st : store) : store * response :=
  callback st (stmt f 0 (inr (Sql.delete_votes st))) (fun '(st1, changes) =>
    callback st1 (stmt f 1 (inr (Sql.update_setting "results_published" "false" st1)))
      (fun st2 => (st2, Resp 200 (BReset "All votes reset successfully" changes)))).

(** ** Start-up: the seed of an empty database *)

Definition defaultCandidates : list (string * Z) :=
  [("Alice Johnson", 1); ("Bob Smith", 2); ("Carol Wilson", 3); ("David Brown", 4)].

Definition seed_candidate (now : Z) (c : string * Z) (st : store) : store :=
  match Sql.insert_candidate (fst c) (snd c) now st with
  | inl _ => st
  | inr (st', _) => st'
  end.

Definition initialize (now : Z) (st : store) : store :=
  let st1 :=
    if (length (candidates st) =? 0)%nat
    then foldl (fun s c => seed_candidate now c s) st defaultCandidates
    else st in
  Sql.insert_setting_or_ignore "winner_announced" "false" now
    (Sql.insert_setting_or_ignore "results_published" "false" now st1).

(** ** Requests *)

Inductive request :=
| GetCandidates
| PostCandidate (name : option string)
| PutCandidate (id : Z) (name : option string)
| DeleteCandidate (id : Z)
| PostVote (voterName : option string) (candidateId : option Z)
| GetResults
| GetVoters
| GetVoterCheck (name : string)
| PostPublish (publish : jsval)
| GetSettings
| DeleteVotes.

Definition handle (r : request) (f : faults) (now : Z) (st : store) : store * response :=
  match r with
  | GetCandidates => listCandidates f st
  | PostCandidate name => addCandidate f now name st
  | PutCandidate id name => updateCandidateName f id name st
  | DeleteCandidate id => removeCandidate f id st
  | PostVote voterName candidateId => castVote f now voterName candidateId st
  | GetResults => tally f st
  | GetVoters => listVoters f st
  | GetVoterCheck name => hasVoted f name st
  | PostPublish publish => setResultsPublished f now publish st
  | GetSettings => getSettings f st
  | DeleteVotes => resetVotes f st
  end.

(** * Predicates used in the statements *)

(** The comparison key of a voter name. *)
Definition folded (name : string) : string := Str.LOWER (Str.trim name).

(** Stored voter names are trimmed. *)
Definition names_trimmed (st : store) : Prop :=
  Forall (fun v => Str.trim (v_voter_name v) = v_voter_name v) (votes st).

(** The keys of the voters on record, in the order of their votes. *)
Definition voter_keys (st : store) : list string :=
  map (fun v => folded (v_voter_name v)) (votes st).

(** No two votes with the same name up to trimming and case. *)
Definition one_vote_each (st : store) : Prop := NoDup (voter_keys st).

(** The [results_published] row exists. *)
Definition has_publish_row (st : store) : Prop :=
  is_Some (settings st !! "results_published").

(** The specification's reading of [hasVoted]: a vote exists whose
    voter name equals the query once both are trimmed and compared
    without regard to case. *)
Definition hasVoted_spec (voterName : string) (st : store) : bool :=
  existsb (fun v => bool_decide (folded (v_voter_name v) = folded voterName)) (votes st).


(** ** Sequences of calls *)

(** One call of [castVote]: its arguments, the clock and the storage
    failures it meets. *)
Record ballot := mkBallot {
  b_faults : faults;
  b_now : Z;
  b_voter : option string;
  b_candidate : option Z
}.

(** The calls run one after the other; the answers are kept in order. *)
Fixpoint castVotes (calls : list ballot) (st : store) : store * list response :=
  match calls with
  | [] => (st, [])
  | b :: rest =>
      let '(st1, r) := castVote (b_faults b) (b_now b) (b_voter b) (b_candidate b) st in
      let '(st2, rs) := castVotes rest st1 in
      (st2, r :: rs)
  end.

(** One call of [addCandidate]. *)
Record nomination := mkNomination {
  n_faults : faults;
  n_now : Z;
  n_name : option string
}.

Fixpoint addCandidates (calls : list nomination) (st : store) : store * list response :=
  match calls with
  | [] => (st, [])
  | n :: rest =>
      let '(st1, r) := addCandidate (n_faults n) (n_now n) (n_name n) st in
      let '(st2, rs) := addCandidates rest st1 in
      (st2, r :: rs)
  end.

(** A call succeeded when it was answered with status 200. *)
Definition succeeded (r : response) : bool := status r =? 200.

(** How many calls succeeded. *)
Definition successes (rs : list response) : nat :=
  length (List.filter succeeded rs).

(** The trimmed names of the nominations that succeeded, in call order. *)
Definition accepted_names (calls : list nomination) (rs : list response) : list string :=
  omap (fun p => if succeeded (snd p) then Str.trim <$> n_name (fst p) else None)
       (zip calls rs).

(** The store a successful [addCandidate] leaves. *)
Definition added (st : store) (s : string) (now : Z) : store :=
  with_candidates st
    (candidates st ++
     [mkCandidate (candidate_seq st + 1) (Str.trim s)
        (next_position (Sql.max_position st)) now])
    (candidate_seq st + 1).

(** ** Reading a tally *)

Definition votes_of (r : result) : Z := t_vote_count (r_row r).



(** The test of the winners filter, read on an entry. *)
Definition leads (M : number) (r : result) : bool :=
  strict_eq (votes_of r) M && positive_number M.

(** ** Failures *)

(** Whether the text [e] contains [msg]. *)
Definition includes (e msg : string) : bool :=
  match String.index 0 msg e with
  | Some _ => true
  | None => false
  end.

(** Whether the answer carries the text [msg] in its [error] field. *)
Definition discloses (r : response) (msg : string) : bool :=
  match payload r with
  | BError e => includes e msg
  | _ => false
  end.

(** The number of statements, counted from the first, whose callback
    the handler of [r] gets to run on [st] when none of them fails. *)
Definition checked_statements (r : request) (st : store) : nat :=
  match r with
  | GetCandidates | GetResults | GetVoters | GetVoterCheck _
  | PostPublish _ | GetSettings => 1%nat
  | DeleteVotes => 2%nat
  | PostCandidate name =>
      match required_name name with Some _ => 2%nat | None => 0%nat end
  | PutCandidate _ name =>
      match required_name name with Some _ => 1%nat | None => 0%nat end
  | DeleteCandidate id =>
      if 0 <? Sql.count_votes id st then 1%nat else 2%nat
  | PostVote voterName candidateId =>
      match voterName, candidateId with
      | Some vn, Some cid =>
          if not_string voterName || not_int candidateId then 0%nat
          else match Sql.find_voter (Str.trim vn) st with
               | Some _ => 1%nat
               | None => match Sql.find_candidate cid st with
                         | None => 2%nat
                         | Some _ => 3%nat
                         end
               end
      | _, _ => 0%nat
      end
  end.

(** The error kinds of the specification with the status each maps to. *)
Inductive error_kind := ValidationError | NotFoundError | ConflictError.

Definition status_of (k : error_kind) : Z :=
  match k with
  | ValidationError => 400
  | NotFoundError => 404
  | ConflictError => 400
  end.

(** When the specification has an operation fail, and with which kind. *)
Inductive refused (st : store) : request -> error_kind -> Prop :=
| refused_add name :
    required_name name = None ->
    refused st (PostCandidate name) ValidationError
| refused_rename_blank id name :
    required_name name = None ->
    refused st (PutCandidate id name) ValidationError
| refused_rename_unknown id name :
    required_name name ≠ None ->
    (forall c, c ∈ candidates st -> c_id c ≠ id) ->
    refused st (PutCandidate id name) NotFoundError
| refused_remove_voted id :
    0 < Sql.count_votes id st ->
    refused st (DeleteCandidate id) ConflictError
| refused_remove_unknown id :
    Sql.count_votes id st = 0 ->
    (forall c, c ∈ candidates st -> c_id c ≠ id) ->
    refused st (DeleteCandidate id) NotFoundError
| refused_vote_missing voterName candidateId :
    not_string voterName || not_int candidateId = true ->
    refused st (PostVote voterName candidateId) ValidationError
| refused_vote_again vn cid :
    not_string (Some vn) || not_int (Some cid) = false ->
    hasVoted_spec vn st = true ->
    refused st (PostVote (Some vn) (Some cid)) ConflictError
| refused_vote_unknown vn cid :
    not_string (Some vn) || not_int (Some cid) = false ->
    hasVoted_spec vn st = false ->
    (forall c, c ∈ candidates st -> c_id c ≠ cid) ->
    refused st (PostVote (Some vn) (Some cid)) NotFoundError.

(** ** Reading the percentages *)


Definition sum_of (l : list Z) : Z := foldr Z.add 0 l.

(** The share of [count] in [total] in tenths of a percent, rounded to
    the nearest tenth with halves rounded up. *)
Definition rounded_share (count total : Z) : Z :=
  (2000 * count + total) / (2 * total).


(** * Further invariants of the tables *)

(** Every vote names a candidate of the table. *)
Definition votes_refer (st : store) : Prop :=
  Forall (fun v => exists c, c ∈ candidates st /\ c_id c = v_candidate_id v) (votes st).

(** Row ids are pairwise distinct and none is above the AUTOINCREMENT
    counter of its table. *)
Definition ids_issued (st : store) : Prop :=
  NoDup (map c_id (candidates st)) /\
  Forall (fun c => c_id c <= candidate_seq st) (candidates st) /\
  NoDup (map v_id (votes st)) /\
  Forall (fun v => v_id v <= vote_seq st) (votes st).

(** Positions are pairwise distinct and at least 1. *)
Definition positions_distinct (st : store) : Prop :=
  NoDup (map c_position (candidates st)) /\
  Forall (fun c => 1 <= c_position c) (candidates st).

(** A request that only reads. *)
Definition is_get (r : request) : bool :=
  match r with
  | GetCandidates | GetResults | GetVoters | GetVoterCheck _ | GetSettings => true
  | _ => false
  end.

(** A candidate row under another name. *)
Definition renamed (name : string) (c : candidate) : candidate :=
  mkCandidate (c_id c) name (c_position c) (c_created_at c).

(** The result row of candidate [cid] with one vote more. *)
Definition one_more (cid : Z) (row : tally_row) : tally_row :=
  if t_id row =? cid
  then mkTallyRow (t_id row) (t_name row) (t_position row) (t_vote_count row + 1)
  else row.

(** The total a results body reports. *)
Definition total_of (b : body) : option Z :=
  match b with
  | BResults _ total _ _ => Some total
  | _ => None
  end.

(** The orders of the two sorted listings. *)
Definition position_le (a b : candidate) : Prop := c_position a <= c_position b.
Definition position_lt (a b : candidate) : Prop := c_position a < c_position b.
Definition not_earlier (a b : voter_row) : Prop := w_timestamp b <= w_timestamp a.

(** The row of the voters listing for vote [v] cast for candidate [c]. *)
Definition voter_row_of (v : vote) (c : candidate) : voter_row :=
  mkVoterRow (v_voter_name v) (c_name c) (v_timestamp v).

(** The result row of candidate [id] under another name. *)
Definition renamed_row (id : Z) (name : string) (row : tally_row) : tally_row :=
  if t_id row =? id
  then mkTallyRow (t_id row) name (t_position row) (t_vote_count row)
  else row.

(** * The administrator's login *)

(** [x === s] for a value of a JSON body and a string literal. *)
Definition is_string (s : string) (v : jsval) : bool :=
  match v with
  | JStr t => bool_decide (t = s)
  | _ => false
  end.

(** A JSON body as the page receives it: a body of the election routes
    or one of the two bodies of the login route. *)
Inductive json :=
| Api (b : body)
| LoginOk (message token : string)
| LoginRefused (error : string).

(** [POST /api/admin/login] *)
Definition adminLogin (username password : jsval) : Z * json :=
  if is_string "admin" username && is_string "admin123" password
  then (200, LoginOk "Admin login successful" "admin-token")
  else (401, LoginRefused "Invalid credentials").

(** ** The application as a whole *)

(** Where a request of the page arrives: at a route of the election, at
    the login route, or at no route at all. *)
Inductive endpoint :=
| Route (r : request)
| LoginRoute (username password : jsval)
| NoRoute.

(** The status and the JSON body of the answer; [None] is the 404 page
    of Express, which is no JSON. *)
Definition serve (e : endpoint) (f : faults) (now : Z) (st : store)
  : store * option (Z * json) :=
  match e with
  | Route r =>
      let '(st', resp) := handle r f now st in
      (st', Some (status resp, Api (payload resp)))
  | LoginRoute username password => (st, Some (adminLogin username password))
  | NoRoute => (st, None)
  end.

(** * The voting page *)

(** The page's text is not modelled: a function of the page returns the
    new values of the script's variables, the tables of the server after
    its requests, and what it puts before the user (alerts, the section
    it switches to, the confirmation panel).  The document has the
    elements the script names, the functions run one after another, and
    requests are within the size limits of the HTTP stack. *)
Module Client.

(** What the page keeps of a candidate. *)
Record entry := mkEntry {
  e_id : Z;
  e_name : string;
  e_position : Z
}.

(** The four variables at the top of the script; [currentUser = None]
    is [null]. *)
Record state := mkState {
  candidates : gmap string entry;
  currentUser : option string;
  isAdmin : bool;
  resultsPublished : jsval
}.

Definition initial : state := mkState ∅ None false (JBool false).

Definition with_candidates (c : state) (m : gmap string entry) : state :=
  mkState m (currentUser c) (isAdmin c) (resultsPublished c).

Definition with_currentUser (c : state) (u : option string) : state :=
  mkState (candidates c) u (isAdmin c) (resultsPublished c).

Definition with_isAdmin (c : state) (b : bool) : state :=
  mkState (candidates c) (currentUser c) b (resultsPublished c).

Definition with_resultsPublished (c : state) (v : jsval) : state :=
  mkState (candidates c) (currentUser c) (isAdmin c) v.

(** What a function puts before the user. *)
Inductive effect :=
| Alert (message : string)
| Show (section : string)
| VoteConfirmed.

(** ** Requests *)

(** What happens to one [fetch]: it is rejected with a message before
    it reaches the server, or it is served, at time [net_now] and with
    the storage failures [net_faults]; [net_not_json] is the message of
    the error [response.json()] raises on a body that is no JSON. *)
Record wire := mkWire {
  net_faults : faults;
  net_now : Z;
  net_down : option string;
  net_not_json : string
}.

Definition clear (now : Z) : wire := mkWire no_faults now None "".

(** The request reaches the server and no statement fails. *)
Definition through (w : wire) : Prop :=
  net_down w = None /\ forall k, net_faults w k = None.

(** [response.ok] *)
Definition ok (code : Z) : bool := (200 <=? code) && (code <=? 299).

(** [result.error || 'API request failed'] *)
Definition error_of (j : json) : string :=
  match j with
  | Api (BError e) | LoginRefused e =>
      if Str.is_empty e then "API request failed" else e
  | _ => "API request failed"
  end.

(** [apiCall]: the parsed body, or the message of the error thrown. *)
Definition apiCall (e : endpoint) (w : wire) (st : store) : store * (string + json) :=
  match net_down w with
  | Some m => (st, inl m)
  | None =>
      match serve e (net_faults w) (net_now w) st with
      | (st', Some (code, j)) => (st', if ok code then inr j else inl (error_of j))
      | (st', None) => (st', inl (net_not_json w))
      end
  end.

(** ** The candidates the page knows *)

(** [`candidate${position}`] *)
Definition key_of (position : Z) : string := "candidate" +:+ pretty position.

Definition entry_of (c : candidate) : entry :=
  mkEntry (c_id c) (c_name c) (c_position c).

(** The body of the [forEach] of [loadCandidates]. *)
Definition remember (m : gmap string entry) (c : candidate) : gmap string entry :=
  <[key_of (c_position c) := entry_of c]> m.

(** [loadCandidates]: the variable is emptied once the answer is there,
    before the answer is read. *)
Definition loadCandidates (w : wire) (c : state) (st : store)
  : state * store * list effect :=
  match apiCall (Route GetCandidates) w st with
  | (st', inr (Api (BCandidates rows))) =>
      (with_candidates c (foldl remember ∅ rows), st', [])
  | (st', inr _) =>
      (with_candidates c ∅, st',
       [Alert "Failed to load candidates. Please refresh the page."])
  | (st', inl _) =>
      (c, st', [Alert "Failed to load candidates. Please refresh the page."])
  end.

(** The property names every object inherits from [Object.prototype];
    their values are functions or objects, so truthy and without [id]. *)
Definition inherited (key : string) : bool :=
  bool_decide (key ∈ ["constructor"; "__defineGetter__"; "__defineSetter__";
                      "hasOwnProperty"; "__lookupGetter__"; "__lookupSetter__";
                      "isPrototypeOf"; "propertyIsEnumerable"; "toString";
                      "valueOf"; "__proto__"; "toLocaleString"]).

(** [candidates[candidateKey]] *)
Inductive slot :=
| Own (e : entry)
| Inherited
| Missing.

Definition get (m : gmap string entry) (key : string) : slot :=
  match m !! key with
  | Some e => Own e
  | None => if inherited key then Inherited else Missing
  end.

(** [resultsPublished = response.settings.results_published || false] *)
Definition loadSettings (w : wire) (c : state) (st : store) : state * store :=
  match apiCall (Route GetSettings) w st with
  | (st', inr (Api (BSettings values))) =>
      (with_resultsPublished c
         (match values !! "results_published" with
          | Some v => if truthy v then v else JBool false
          | None => JBool false
          end), st')
  | (st', _) => (c, st')
  end.

(** ** Voters *)

(** A path segment the URL parser of [fetch] drops or resolves. *)
Definition dot_segment (s : string) : bool :=
  bool_decide (s = ".") || bool_decide (s = "..").

(** [`/voters/${encodeURIComponent(userName)}/check`]: the route
    decodes the name again, unless the name is a dot segment, which
    leaves a path of no route. *)
Definition check_endpoint (userName : string) : endpoint :=
  if dot_segment userName then NoRoute else Route (GetVoterCheck userName).

(** [userLogin], on the content of the name field. *)
Definition userLogin (input : string) (w : wire) (c : state) (st : store)
  : state * store * list effect :=
  let userName := Str.trim input in
  if Str.is_empty userName
  then (c, st, [Alert "Please enter your name to continue."])
  else
    match apiCall (check_endpoint userName) w st with
    | (st', inr (Api (BHasVoted true))) => (c, st', [Alert "You have already voted!"])
    | (st', inr _) =>
        (with_currentUser c (Some userName), st', [Show "user-voting-section"])
    | (st', inl _) => (c, st', [Alert "Login failed. Please try again."])
    end.

(** [vote] *)
Definition vote (candidateKey : string) (w : wire) (c : state) (st : store)
  : state * store * list effect :=
  if not_string (currentUser c)
  then (c, st, [Alert "Please login first."])
  else
    match get (candidates c) candidateKey with
    | Missing => (c, st, [Alert "Invalid candidate selection."])
    | found =>
        let candidateId := match found with Own e => Some (e_id e) | _ => None end in
        match apiCall (Route (PostVote (currentUser c) candidateId)) w st with
        | (st', inr _) => (c, st', [VoteConfirmed])
        | (st', inl message) =>
            (c, st',
             [Alert (if Str.is_empty message
                     then "Failed to cast vote. Please try again."
                     else message)])
        end
    end.

(** ** Results *)

(** The winner announcement of a results body. *)
Inductive announcement :=
| Tie (count : Z)
| Leader (name : string) (count : Z)
| Blank.

(** [response.results[0].vote_count], which throws without a first
    result. *)
Definition first_count (results : list result) : option Z :=
  match results with
  | r :: _ => Some (t_vote_count (r_row r))
  | [] => None
  end.

(** The announcement of [updateResults]; [None]: the function throws
    before it writes one. *)
Definition announce (b : body) : option announcement :=
  match b with
  | BResults results _ winner tie =>
      if tie then Tie <$> first_count results
      else match winner with
           | Some w => Some (Leader (t_name (r_row w)) (t_vote_count (r_row w)))
           | None => Some Blank
           end
  | _ => None
  end.

(** The requests of [updateAdminDashboard]: the results and the voters,
    whose failures are caught and only logged. *)
Definition updateAdminDashboard (net : nat -> wire) (k : nat) (st : store) : store :=
  fst (apiCall (Route GetVoters) (net (S k))
         (fst (apiCall (Route GetResults) (net k) st))).

(** What the public results section holds after [displayPublicResults];
    the announcement is [None] where the function leaves the text as it
    was. *)
Inductive view :=
| NotPublished
| NoVotes
| Final (a : option announcement) (results : list result) (totalVotes : Z)
| LoadError.

Definition displayPublicResults (w : wire) (c : state) (st : store) : store * view :=
  if negb (truthy (resultsPublished c))
  then (st, NotPublished)
  else
    match apiCall (Route GetResults) w st with
    | (st', inr (Api (BResults results totalVotes winner tie))) =>
        if totalVotes =? 0 then (st', NoVotes)
        else if tie then
          match first_count results with
          | Some n => (st', Final (Some (Tie n)) results totalVotes)
          | None => (st', LoadError)
          end
        else
          (st', Final (match winner with
                       | Some w => Some (Leader (t_name (r_row w)) (t_vote_count (r_row w)))
                       | None => None
                       end) results totalVotes)
    | (st', _) => (st', LoadError)
    end.

(** ** The administrator *)

(** [adminLogin], on the contents of the two fields. *)
Definition adminLogin (usernameInput passwordInput : string) (net : nat -> wire)
    (c : state) (st : store) : state * store * list effect :=
  let username := Str.trim usernameInput in
  let password := Str.trim passwordInput in
  match apiCall (LoginRoute (JStr username) (JStr password)) (net 0%nat) st with
  | (st', inr _) =>
      (with_isAdmin c true, updateAdminDashboard net 1 st',
       [Show "admin-dashboard-section"])
  | (st', inl _) => (c, st', [Alert "Invalid admin credentials."])
  end.

(** [publishResults]; [confirmed] is the answer to the [confirm]. *)
Definition publishResults (confirmed : bool) (net : nat -> wire) (c : state) (st : store)
  : state * store * list effect * option view :=
  if negb (isAdmin c)
  then (c, st, [Alert "Access denied."], None)
  else
    match apiCall (Route GetResults) (net 0%nat) st with
    | (st1, inl message) =>
        (c, st1, [Alert ("Failed to publish results: " +:+ message)], None)
    | (st1, inr response) =>
        if match response with
           | Api (BResults _ totalVotes _ _) => totalVotes =? 0
           | _ => false
           end
        then (c, st1, [Alert "No votes to publish."], None)
        else if confirmed then
          match apiCall (Route (PostPublish (JBool true))) (net 1%nat) st1 with
          | (st2, inl message) =>
              (c, st2, [Alert ("Failed to publish results: " +:+ message)], None)
          | (st2, inr _) =>
              let c' := with_resultsPublished c (JBool true) in
              let '(st3, v) := displayPublicResults (net 2%nat) c' st2 in
              (c', st3,
               [Alert "Results published successfully!"; Show "public-results-section"],
               Some v)
          end
        else (c, st1, [], None)
    end.

(** [resetVotes]; [confirmed] is the answer to the [confirm]. *)
Definition resetVotes (confirmed : bool) (net : nat -> wire) (c : state) (st : store)
  : state * store * list effect :=
  if negb (isAdmin c)
  then (c, st, [Alert "Access denied."])
  else if negb confirmed then (c, st, [])
  else
    match apiCall (Route DeleteVotes) (net 0%nat) st with
    | (st1, inr _) =>
        (with_resultsPublished c (JBool false), updateAdminDashboard net 1 st1,
         [Alert "All votes have been reset successfully."])
    | (st1, inl message) =>
        (c, st1, [Alert ("Failed to reset votes: " +:+ message)])
    end.

(** [addCandidate]; [answer] is what the [prompt] returns, [None] when
    it is dismissed.  [loadCandidates] raises its own alert and does not
    throw. *)
Definition addCandidate (answer : option string) (net : nat -> wire) (c : state)
    (st : store) : state * store * list effect :=
  if negb (isAdmin c)
  then (c, st, [Alert "Access denied."])
  else
    match answer with
    | None => (c, st, [])
    | Some name =>
        if Str.is_empty name || Str.is_empty (Str.trim name)
        then (c, st, [])
        else
          match apiCall (Route (PostCandidate (Some (Str.trim name)))) (net 0%nat) st with
          | (st1, inr _) =>
              let '(c2, st2, alerts) := loadCandidates (net 1%nat) c st1 in
              (c2, updateAdminDashboard net 2 st2,
               (alerts ++ [Alert "Candidate added successfully!"])%list)
          | (st1, inl message) =>
              (c, st1, [Alert ("Failed to add candidate: " +:+ message)])
          end
    end.

(** [logout] *)
Definition logout (c : state) : state * list effect :=
  (with_isAdmin (with_currentUser c None) false, [Show "user-login-section"]).

(** ** A visit *)

(** What a visitor does on the page, with what each request meets. *)
Inductive action :=
| LoadCandidates (w : wire)
| LoadSettings (w : wire)
| UserLogin (input : string) (w : wire)
| Vote (candidateKey : string) (w : wire)
| ShowPublicResults (w : wire)
| AdminLogin (usernameInput passwordInput : string) (net : nat -> wire)
| AddCandidate (answer : option string) (net : nat -> wire)
| PublishResults (confirmed : bool) (net : nat -> wire)
| ResetVotes (confirmed : bool) (net : nat -> wire)
| Logout.

Definition step (a : action) (s : state * store) : state * store :=
  let '(c, st) := s in
  match a with
  | LoadCandidates w => fst (loadCandidates w c st)
  | LoadSettings w => loadSettings w c st
  | UserLogin input w => fst (userLogin input w c st)
  | Vote candidateKey w => fst (vote candidateKey w c st)
  | ShowPublicResults w => (c, fst (displayPublicResults w c st))
  | AdminLogin usernameInput passwordInput net =>
      fst (adminLogin usernameInput passwordInput net c st)
  | AddCandidate answer net => fst (addCandidate answer net c st)
  | PublishResults confirmed net => fst (fst (publishResults confirmed net c st))
  | ResetVotes confirmed net => fst (resetVotes confirmed net c st)
  | Logout => (fst (logout c), st)
  end.

Definition run (l : list action) (s : state * store) : state * store :=
  foldl (fun s a => step a s) s l.

(** The action is a login with the administrator's name and password in
    the fields, white space around them aside. *)
Definition presents_credentials (a : action) : bool :=
  match a with
  | AdminLogin usernameInput passwordInput _ =>
      bool_decide (Str.trim usernameInput = "admin")
      && bool_decide (Str.trim passwordInput = "admin123")
  | _ => false
  end.

End Client.

(** The second tables hold the candidates and settings of the first
    and its votes, followed by further votes. *)
Definition grown (st st' : store) : Prop :=
  candidates st' = candidates st /\ settings st' = settings st /\
  votes st `prefix_of` votes st'.
(** * Properties *)

(** ** Trimming twice *)

Section TrimFacts.

Lemma trimStart_fixed (c : ascii) (s : string) :
  Str.is_white c = false -> Str.trimStart (String c s) = String c s.
Proof. intros H. simpl. now rewrite H. Qed.

Lemma trimEnd_head (c : ascii) (s : string) :
  Str.is_white c = false -> Str.trimEnd (String c s) = String c (Str.trimEnd s).
Proof. intros H. simpl. now rewrite H. Qed.

Lemma trimEnd_idem (s : string) : Str.trimEnd (Str.trimEnd s) = Str.trimEnd s.
Proof.
  induction s as [|c s IH]; [reflexivity|].
  simpl. destruct (Str.is_white c && Str.is_empty (Str.trimEnd s)) eqn:E.
  - reflexivity.
  - simpl. rewrite IH, E. reflexivity.
Qed.

(** What is left of [trimStart] is empty or starts with a visible
    character. *)
Lemma trimStart_shape (s : string) :
  Str.trimStart s = EmptyString \/
  exists c t, Str.trimStart s = String c t /\ Str.is_white c = false.
Proof.
  induction s as [|c s IH]; [now left|].
  simpl. destruct (Str.is_white c) eqn:E; [exact IH|].
  right. now exists c, s.
Qed.

Lemma trim_idem (s : string) : Str.trim (Str.trim s) = Str.trim s.
Proof.
  unfold Str.trim.
  destruct (trimStart_shape s) as [-> | (c & t & -> & Hc)]; [reflexivity|].
  rewrite (trimEnd_head _ _ Hc), (trimStart_fixed _ _ Hc).
  rewrite <- (trimEnd_head _ _ Hc). apply trimEnd_idem.
Qed.

End TrimFacts.

(** ** Invariants of the tables *)

Lemma folded_stored (st : store) (v : vote) :
  names_trimmed st -> v ∈ votes st ->
  folded (v_voter_name v) = Str.LOWER (v_voter_name v).
Proof.
  intros H Hin. unfold folded.
  rewrite (proj1 (Forall_forall _ _) H v Hin). reflexivity.
Qed.

(** The pre-check of [castVote] finds a row exactly when the key of the
    name is already taken. *)
Lemma find_voter_trim (st : store) (name : string) :
  names_trimmed st ->
  is_Some (Sql.find_voter (Str.trim name) st) <->
  folded name ∈ voter_keys st.
Proof.
  unfold names_trimmed, Sql.find_voter, voter_keys, folded. intros H.
  induction (votes st) as [|v vs IH]; simpl.
  - split; [intros [? ?]; discriminate | intros Hin; inversion Hin].
  - apply Forall_cons in H as [Hv Hvs]. specialize (IH Hvs).
    rewrite Hv. case_bool_decide as E.
    + split; [intros _; rewrite E; left | eauto].
    + rewrite IH. split; [now right|].
      intros Hin. apply elem_of_cons in Hin as [Heq | Hin]; [congruence | exact Hin].
Qed.

(** ** Removing a candidate *)

Section Remove.

(** Once the row is deleted the subquery of the re-packing UPDATE finds
    nothing. *)
Lemma position_of_deleted (id : Z) (st : store) :
  Sql.position_of id (fst (Sql.delete_candidate id st)) = None.
Proof.
  unfold Sql.position_of, Sql.delete_candidate. simpl.
  induction (candidates st) as [|c cs IH]; [reflexivity|].
  rewrite filter_cons. case_decide as E; [|exact IH].
  simpl. destruct (c_id c =? id) eqn:E'; [lia | exact IH].
Qed.

Lemma shift_after_delete (id : Z) (st : store) :
  Sql.shift_positions_after id (fst (Sql.delete_candidate id st))
  = fst (Sql.delete_candidate id st).
Proof.
  unfold Sql.shift_positions_after. now rewrite position_of_deleted.
Qed.

(** Whatever the outcome, the candidates left are the old rows without
    the deleted one, positions included. *)
Lemma removeCandidate_rows (f : faults) (id : Z) (st : store) :
  status (snd (removeCandidate f id st)) = 200 ->
  candidates (fst (removeCandidate f id st))
  = filter (fun c => c_id c ≠ id) (candidates st).
Proof.
  unfold removeCandidate, callback, stmt.
  destruct (f 0%nat); [discriminate|].
  destruct (0 <? Sql.count_votes id st); [discriminate|].
  destruct (f 1%nat); [discriminate|].
  destruct (Sql.delete_candidate id st) as [st1 changes] eqn:E.
  destruct (changes =? 0); [discriminate|].
  intros _. simpl.
  assert (Hst1 : st1 = fst (Sql.delete_candidate id st)) by now rewrite E.
  destruct (f 2%nat); simpl.
  - rewrite Hst1. reflexivity.
  - rewrite Hst1, shift_after_delete. reflexivity.
Qed.

End Remove.

(** C1, evaluated on the seeded database: deleting the candidate at
    position 2 succeeds and leaves the others at positions 1, 3 and 4;
    nothing is re-packed. *)
Theorem removeCandidate_leaves_gap :
  let st := initialize 0 empty_store in
  let '(st', r) := removeCandidate no_faults 2 st in
  map c_position (candidates st) = [1; 2; 3; 4] /\
  Sql.count_votes 2 st = 0 /\
  status r = 200 /\
  map c_position (candidates st') = [1; 3; 4].
Proof. vm_compute. repeat split; reflexivity. Qed.

(** ** Has this voter voted? *)

(** C5, evaluated after "Alice" has voted: the check for " Alice"
    answers false although the names agree once trimmed, and a vote cast
    under " Alice" is refused as a duplicate. *)
Theorem hasVoted_untrimmed_query :
  let st := fst (castVote no_faults 1 (Some "Alice") (Some 1) (initialize 0 empty_store)) in
  map v_voter_name (votes st) = ["Alice"] /\
  hasVoted_spec " Alice" st = true /\
  snd (hasVoted no_faults " Alice" st) = Resp 200 (BHasVoted false) /\
  snd (castVote no_faults 2 (Some " Alice") (Some 2) st)
  = Resp 400 (BError "You have already voted!").
Proof. vm_compute. repeat split; reflexivity. Qed.

Lemma hasVoted_spec_elem (name : string) (st : store) :
  hasVoted_spec name st = true <->
  folded name ∈ voter_keys st.
Proof.
  unfold hasVoted_spec, voter_keys. rewrite existsb_exists. split.
  - intros (v & Hin & Hv). apply bool_decide_eq_true in Hv. rewrite <- Hv.
    apply list_elem_of_In, in_map_iff. eauto.
  - intros Hin. apply list_elem_of_In, in_map_iff in Hin as (v & Hv & Hin).
    exists v. split; [exact Hin | now apply bool_decide_eq_true].
Qed.

Lemma find_voter_spec (name : string) (st : store) :
  names_trimmed st ->
  bool_decide (is_Some (Sql.find_voter (Str.trim name) st)) = hasVoted_spec name st.
Proof.
  intros H. apply eq_true_iff_eq.
  rewrite bool_decide_eq_true, hasVoted_spec_elem. now apply find_voter_trim.
Qed.

(** On a trimmed query the check endpoint agrees with the
    specification's predicate. *)
Lemma hasVoted_trimmed_query (name : string) (st : store) :
  names_trimmed st ->
  hasVoted no_faults (Str.trim name) st
  = (st, Resp 200 (BHasVoted (hasVoted_spec name st))).
Proof.
  intros H. unfold hasVoted, callback, stmt, no_faults.
  now rewrite find_voter_spec.
Qed.

Lemma find_candidate_none (cid : Z) (st : store) :
  Sql.find_candidate cid st = None <-> forall c, c ∈ candidates st -> c_id c ≠ cid.
Proof.
  unfold Sql.find_candidate. induction (candidates st) as [|c cs IH]; simpl.
  - split; [intros _ c Hc; inversion Hc | reflexivity].
  - destruct (c_id c =? cid) eqn:E.
    + split; [discriminate|]. intros H. exfalso. apply (H c); [left | lia].
    + rewrite IH. split.
      * intros H d Hd. apply elem_of_cons in Hd as [-> | Hd]; [lia | now apply H].
      * intros H d Hd. apply H. now right.
Qed.

(** ** Casting a vote *)



(** ** One vote per voter *)

Section OneVote.

Lemma folded_trim (v : string) : folded (Str.trim v) = folded v.
Proof. unfold folded. now rewrite trim_idem. Qed.

(** One call either leaves the store alone or appends the vote of a
    voter whose key was free. *)
Lemma castVote_step (f : faults) (now : Z) (voterName : option string)
    (candidateId : option Z) (st : store) :
  names_trimmed st ->
  let st' := fst (castVote f now voterName candidateId st) in
  let r := snd (castVote f now voterName candidateId st) in
  (succeeded r = false /\ st' = st) \/
  (succeeded r = true /\ names_trimmed st' /\
   exists v, voterName = Some v /\ (folded v ∉ voter_keys st) /\
             voter_keys st' = (voter_keys st ++ [folded v])%list).
Proof.
  intros Htrim. unfold castVote, callback, stmt.
  destruct voterName as [vn|], candidateId as [cid|]; try (left; now split).
  destruct (_ || _); [left; now split|].
  destruct (f 0%nat); [left; now split|].
  destruct (Sql.find_voter (Str.trim vn) st) eqn:Efind; [left; now split|].
  destruct (f 1%nat); [left; now split|].
  destruct (Sql.find_candidate cid st); [|left; now split].
  destruct (f 2%nat); [left; now split|].
  right. simpl. split; [reflexivity|]. split.
  - unfold names_trimmed. simpl. apply Forall_app. split; [exact Htrim|].
    constructor; [apply trim_idem | constructor].
  - exists vn. split; [reflexivity|]. split.
    + intros Hin. apply (find_voter_trim st vn Htrim) in Hin.
      rewrite Efind in Hin. now destruct Hin.
    + unfold voter_keys. simpl. rewrite map_app. simpl. now rewrite folded_trim.
Qed.

Lemma castVote_keeps (f : faults) (now : Z) (voterName : option string)
    (candidateId : option Z) (st : store) :
  names_trimmed st -> one_vote_each st ->
  names_trimmed (fst (castVote f now voterName candidateId st)) /\
  one_vote_each (fst (castVote f now voterName candidateId st)) /\
  (forall k, k ∈ voter_keys st ->
             k ∈ voter_keys (fst (castVote f now voterName candidateId st))).
Proof.
  intros Htrim Hone.
  destruct (castVote_step f now voterName candidateId st Htrim)
    as [[_ ->] | (_ & Ht & v & _ & Hfree & Hkeys)]; [auto|].
  split; [exact Ht|]. unfold one_vote_each. rewrite Hkeys. split.
  - apply NoDup_app. split; [exact Hone|]. split; [|apply NoDup_singleton].
    intros k Hk Hk'. apply list_elem_of_singleton in Hk'. now subst.
  - intros k Hk. apply elem_of_app. now left.
Qed.






End OneVote.



(** ** Settings: reset and publication *)

Section Settings.

Lemma update_setting_value (key value : string) (st : store) :
  is_Some (settings st !! key) ->
  s_value <$> settings (Sql.update_setting key value st) !! key = Some value.
Proof.
  intros [s Hs]. unfold Sql.update_setting. simpl.
  rewrite lookup_alter_eq, Hs. reflexivity.
Qed.

Lemma update_setting_at_value (key value : string) (now : Z) (st : store) :
  is_Some (settings st !! key) ->
  settings (Sql.update_setting_at key value now st) !! key = Some (mkSetting value now).
Proof.
  intros [s Hs]. unfold Sql.update_setting_at. simpl.
  rewrite lookup_alter_eq, Hs. reflexivity.
Qed.

Lemma no_votes_no_voters (st : store) :
  votes st = [] -> Sql.select_voters st = [].
Proof. unfold Sql.select_voters. now intros ->. Qed.

End Settings.

(** C7: on a store with [k] votes [resetVotes] answers
    [deletedCount = k], leaves no vote, and sets [results_published] to
    false whatever it was; the list of voters is then empty. *)
Theorem resetVotes_clears (st : store) :
  has_publish_row st ->
  exists st',
    resetVotes no_faults st
    = (st', Resp 200 (BReset "All votes reset successfully"
                        (Z.of_nat (length (votes st))))) /\
    votes st' = [] /\
    candidates st' = candidates st /\
    s_value <$> settings st' !! "results_published" = Some "false" /\
    (exists values,
       snd (getSettings no_faults st') = Resp 200 (BSettings values) /\
       values !! "results_published" = Some (JBool false)) /\
    listVoters no_faults st' = (st', Resp 200 (BVoters [])).
Proof.
  intros Hrow. eexists. split; [reflexivity|].
  assert (Hv : s_value <$>
               settings (Sql.update_setting "results_published" "false"
                           (fst (Sql.delete_votes st))) !! "results_published"
               = Some "false") by now apply update_setting_value.
  split; [reflexivity|]. split; [reflexivity|]. split; [exact Hv|]. split.
  - eexists. split; [reflexivity|].
    rewrite lookup_fmap.
    destruct (settings _ !! "results_published") as [s|]; [|discriminate].
    simpl in *. injection Hv as Hs. unfold setting_json. now rewrite Hs.
  - unfold listVoters, callback, stmt, no_faults.
    now rewrite no_votes_no_voters.
Qed.

Lemma resetVotes_clears_witness :
  let st := fst (setResultsPublished no_faults 3 (JBool true)
                   (fst (castVote no_faults 2 (Some "Bob") (Some 1)
                      (fst (castVote no_faults 1 (Some "Alice") (Some 1)
                         (initialize 0 empty_store)))))) in
  has_publish_row st /\
  s_value <$> settings st !! "results_published" = Some "true" /\
  exists st',
    resetVotes no_faults st = (st', Resp 200 (BReset "All votes reset successfully" 2)) /\
    votes st' = [] /\
    s_value <$> settings st' !! "results_published" = Some "false".
Proof.
  intros st.
  assert (Hrow : has_publish_row st) by (vm_compute; eauto).
  split; [exact Hrow|]. split; [reflexivity|].
  destruct (resetVotes_clears st Hrow) as (st' & Hr & Hv & _ & Hs & _).
  exists st'. split; [exact Hr|]. split; [exact Hv | exact Hs].
Defined.

(** C10: [POST /api/results/publish] never answers 400; when the
    statement goes through it stores ['true'] for a truthy [publish] and
    ['false'] for anything else, an absent field included. *)
Theorem publish_never_validates (now : Z) (publish : jsval) (st : store) :
  has_publish_row st ->
  (forall f, status (snd (setResultsPublished f now publish st)) ≠ 400) /\
  status (snd (setResultsPublished no_faults now publish st)) = 200 /\
  s_value <$> settings (fst (setResultsPublished no_faults now publish st))
                !! "results_published"
  = Some (if truthy publish then "true" else "false") /\
  s_value <$> settings (fst (setResultsPublished no_faults now JUndefined st))
                !! "results_published"
  = Some "false".
Proof.
  intros Hrow. split; [|split; [reflexivity|]].
  - intros f. unfold setResultsPublished, callback, stmt.
    destruct (f 0%nat); simpl; lia.
  - change (fst (setResultsPublished no_faults now publish st))
      with (Sql.update_setting_at "results_published"
              (if truthy publish then "true" else "false") now st).
    change (fst (setResultsPublished no_faults now JUndefined st))
      with (Sql.update_setting_at "results_published" "false" now st).
    split; now rewrite update_setting_at_value.
Qed.

Lemma publish_never_validates_witness :
  let st := fst (setResultsPublished no_faults 3 (JBool true) (initialize 0 empty_store)) in
  has_publish_row st /\
  s_value <$> settings st !! "results_published" = Some "true" /\
  s_value <$> settings (fst (setResultsPublished no_faults 4 JUndefined st))
                !! "results_published"
  = Some "false".
Proof.
  intros st.
  assert (Hrow : has_publish_row st) by (vm_compute; eauto).
  split; [exact Hrow|]. split; [reflexivity|].
  exact (proj2 (proj2 (proj2 (publish_never_validates 4 JUndefined st Hrow)))).
Defined.

(** ** Adding candidates *)

Section Add.

Lemma max_position_bound (st : store) :
  match Sql.max_position st with
  | None => candidates st = []
  | Some m =>
      (exists c, c ∈ candidates st /\ c_position c = m) /\
      (forall c, c ∈ candidates st -> c_position c <= m)
  end.
Proof.
  unfold Sql.max_position. induction (candidates st) as [|c cs IH]; [reflexivity|].
  simpl. destruct (foldr _ None cs) as [m|].
  - destruct IH as [(d & Hd & Hm) Hle]. split.
    + destruct (Z.max_spec (c_position c) m) as [[_ ->] | [_ ->]].
      * exists d. split; [now right | exact Hm].
      * exists c. split; [left | reflexivity].
    + intros e He. apply elem_of_cons in He as [-> | He]; [lia|].
      specialize (Hle e He). lia.
  - subst cs. split.
    + exists c. split; [left | reflexivity].
    + intros e He. apply elem_of_cons in He as [-> | He]; [lia | inversion He].
Qed.

(** The next position is one more than the largest, and 1 on an empty
    table. *)
Lemma next_position_max (st : store) :
  let p := next_position (Sql.max_position st) in
  (candidates st = [] /\ p = 1) \/
  (exists c, c ∈ candidates st /\ p = c_position c + 1 /\
             forall d, d ∈ candidates st -> c_position d <= c_position c).
Proof.
  pose proof (max_position_bound st) as H. unfold next_position.
  destruct (Sql.max_position st) as [m|]; [right | now left].
  destruct H as [(c & Hc & Hm) Hle]. exists c. split; [exact Hc|]. split.
  - destruct (m =? 0) eqn:E; lia.
  - intros d Hd. specialize (Hle d Hd). lia.
Qed.

(** So the UNIQUE index on [position] never rejects it. *)
Lemma next_position_free (st : store) :
  existsb (fun c => c_position c =? next_position (Sql.max_position st)) (candidates st)
  = false.
Proof.
  apply not_true_is_false. intros H. apply existsb_exists in H as (d & Hd & Heq).
  apply list_elem_of_In in Hd.
  destruct (next_position_max st) as [[Hnil _] | (c & _ & Hp & Hle)].
  - rewrite Hnil in Hd. inversion Hd.
  - specialize (Hle d Hd). lia.
Qed.

Lemma required_name_some (name : option string) (s : string) :
  required_name name = Some s <-> name = Some s /\ Str.trim s ≠ EmptyString.
Proof.
  unfold required_name. destruct name as [t|]; [|split; [discriminate | now intros [? _]]].
  simpl. destruct (Str.is_empty t) eqn:Et; simpl.
  - destruct t; [|discriminate]. split; [discriminate|].
    intros [Heq Hne]. injection Heq as <-. now contradict Hne.
  - destruct (Str.trim t) eqn:E; simpl.
    + split; [discriminate|]. intros [Heq Hne]. injection Heq as <-. now rewrite E in Hne.
    + split.
      * intros Heq. injection Heq as <-. now rewrite E.
      * now intros [-> _].
Qed.

Lemma required_name_none (name : option string) :
  required_name name = None <->
  name = None \/ exists s, name = Some s /\ Str.trim s = EmptyString.
Proof.
  destruct (required_name name) as [s|] eqn:E.
  - apply required_name_some in E as [-> Hne]. split; [discriminate|].
    intros [? | (t & Heq & Ht)]; [discriminate|]. injection Heq as <-. contradiction.
  - split; [intros _ | reflexivity].
    destruct name as [t|]; [right | now left].
    exists t. split; [reflexivity|].
    destruct (Str.trim t) eqn:Et; [reflexivity|].
    assert (required_name (Some t) = Some t) as Hs; [|congruence].
    apply required_name_some. split; [reflexivity|]. now rewrite Et.
Qed.

Lemma addCandidate_step (f : faults) (now : Z) (name : option string) (st : store) :
  (succeeded (snd (addCandidate f now name st)) = false /\
   fst (addCandidate f now name st) = st) \/
  (exists s, required_name name = Some s /\
             succeeded (snd (addCandidate f now name st)) = true /\
             fst (addCandidate f now name st) = added st s now).
Proof.
  unfold addCandidate, callback, stmt, Sql.insert_candidate.
  destruct (required_name name) as [s|]; [|left; now split].
  destruct (f 0%nat); [left; now split|].
  destruct (f 1%nat); [left; now split|].
  rewrite next_position_free. right. exists s. now repeat split.
Qed.

Lemma addCandidate_ok (now : Z) (name : option string) (s : string) (st : store) :
  required_name name = Some s ->
  addCandidate no_faults now name st
  = (added st s now,
     Resp 200 (BCandidateAdded (candidate_seq st + 1) (Str.trim s)
                 (next_position (Sql.max_position st))
                 "Candidate added successfully")).
Proof.
  intros H. unfold addCandidate, callback, stmt, no_faults, Sql.insert_candidate.
  now rewrite H, next_position_free.
Qed.

(** On a table whose positions are 1..n the next position is n + 1. *)
Lemma next_position_dense (st : store) (n : nat) :
  map c_position (candidates st) = seqZ 1 (Z.of_nat n) ->
  next_position (Sql.max_position st) = Z.of_nat n + 1.
Proof.
  intros Hpos.
  assert (Hin : forall c, c ∈ candidates st -> 1 <= c_position c < 1 + Z.of_nat n).
  { intros c Hc. apply elem_of_seqZ. rewrite <- Hpos.
    apply list_elem_of_In, in_map, list_elem_of_In, Hc. }
  destruct (next_position_max st) as [[Hnil ->] | (c & Hc & -> & Hle)].
  - rewrite Hnil in Hpos. simpl in Hpos.
    destruct n; [reflexivity|]. rewrite seqZ_cons in Hpos by lia. discriminate.
  - assert (Hn : Z.of_nat n ∈ seqZ 1 (Z.of_nat n)).
    { apply elem_of_seqZ. specialize (Hin c Hc). lia. }
    rewrite <- Hpos in Hn. apply list_elem_of_In, in_map_iff in Hn as (d & Hd & Hdin).
    apply list_elem_of_In in Hdin. specialize (Hle d Hdin). specialize (Hin c Hc). lia.
Qed.

Lemma addCandidates_cons (n : nomination) (rest : list nomination) (st : store) :
  addCandidates (n :: rest) st
  = (fst (addCandidates rest (fst (addCandidate (n_faults n) (n_now n) (n_name n) st))),
     snd (addCandidate (n_faults n) (n_now n) (n_name n) st)
       :: snd (addCandidates rest (fst (addCandidate (n_faults n) (n_now n) (n_name n) st)))).
Proof.
  simpl. destruct (addCandidate _ _ _ st) as [st1 r]. simpl.
  now destruct (addCandidates rest st1).
Qed.

Lemma addCandidates_dense (calls : list nomination) (st : store) (n : nat) :
  map c_position (candidates st) = seqZ 1 (Z.of_nat n) ->
  let st' := fst (addCandidates calls st) in
  let rs := snd (addCandidates calls st) in
  map c_position (candidates st') = seqZ 1 (Z.of_nat (n + successes rs)) /\
  map c_name (candidates st')
  = (map c_name (candidates st) ++ accepted_names calls rs)%list.
Proof.
  revert st n. induction calls as [|c rest IH]; intros st n Hpos.
  - simpl. rewrite Nat.add_0_r, app_nil_r. now split.
  - rewrite addCandidates_cons. cbv zeta. cbn [fst snd].
    unfold successes, accepted_names. cbn [List.filter zip zip_with omap list_omap fst snd].
    destruct (addCandidate_step (n_faults c) (n_now c) (n_name c) st)
      as [[Hr Hst] | (s & Hs & Hr & Hst)]; rewrite Hr, Hst.
    + apply (IH st n Hpos).
    + assert (Hpos' : map c_position (candidates (added st s (n_now c)))
                      = seqZ 1 (Z.of_nat (S n))).
      { unfold added. simpl. rewrite map_app, Hpos, seqZ_S. simpl.
        rewrite (next_position_dense st n Hpos). do 2 f_equal. lia. }
      destruct (IH _ _ Hpos') as [IH1 IH2]. split.
      * rewrite IH1. simpl. do 2 f_equal. unfold successes. lia.
      * rewrite IH2. apply required_name_some in Hs as [-> _].
        unfold added. simpl. rewrite map_app, <- app_assoc. reflexivity.
Qed.

End Add.

(** A fifth candidate on the seeded table gets position 5. *)
Example addCandidate_eve :
  snd (addCandidate no_faults 9 (Some "Eve") (initialize 0 empty_store))
  = Resp 200 (BCandidateAdded 5 "Eve" 5 "Candidate added successfully").
Proof. reflexivity. Qed.

(** C6: [addCandidate] answers 400 when the name is absent or empty
    after trimming; otherwise it appends a candidate whose position is
    one more than the largest position, or 1 on an empty table.  From an
    empty table, the calls that succeed get positions 1..N in call
    order. *)
Theorem addCandidate_positions (now : Z) (name : option string) (st : store) :
  ((name = None \/ exists s, name = Some s /\ Str.trim s = EmptyString) ->
   forall f, addCandidate f now name st
             = (st, Resp 400 (BError "Candidate name is required"))) /\
  (forall s, name = Some s -> Str.trim s ≠ EmptyString ->
     exists st' p,
       addCandidate no_faults now name st
       = (st', Resp 200 (BCandidateAdded (candidate_seq st + 1) (Str.trim s) p
                           "Candidate added successfully")) /\
       candidates st'
       = (candidates st ++ [mkCandidate (candidate_seq st + 1) (Str.trim s) p now])%list /\
       ((candidates st = [] /\ p = 1) \/
        (exists c, c ∈ candidates st /\ p = c_position c + 1 /\
                   forall d, d ∈ candidates st -> c_position d <= c_position c))) /\
  (forall calls,
     candidates st = [] ->
     map c_position (candidates (fst (addCandidates calls st)))
     = seqZ 1 (Z.of_nat (successes (snd (addCandidates calls st)))) /\
     map c_name (candidates (fst (addCandidates calls st)))
     = accepted_names calls (snd (addCandidates calls st))).
Proof.
  split; [|split].
  - intros H f. apply required_name_none in H. unfold addCandidate. now rewrite H.
  - intros s Hs Hne.
    assert (Hreq : required_name name = Some s) by now apply required_name_some.
    exists (added st s now), (next_position (Sql.max_position st)).
    split; [now apply addCandidate_ok|]. split; [reflexivity|].
    apply next_position_max.
  - intros calls Hnil.
    assert (Hpos : map c_position (candidates st) = seqZ 1 (Z.of_nat 0)) by now rewrite Hnil.
    destruct (addCandidates_dense calls st 0 Hpos) as [H1 H2].
    split; [exact H1|]. rewrite H2, Hnil. reflexivity.
Qed.

(** ** Winner and tie *)

Section Filter.

Context {A : Type} (p : A -> bool).





End Filter.

Section Winner.

Lemma Math_max_nil_iff (l : list Z) : Math_max l = NegInfinity <-> l = [].
Proof.
  destruct l as [|x l]; [easy|].
  change (Math_max (x :: l))
    with (match Math_max l with NegInfinity => Int x | Int m => Int (Z.max x m) end).
  destruct (Math_max l); split; discriminate.
Qed.

Lemma Math_max_spec (l : list Z) (m : Z) :
  Math_max l = Int m -> m ∈ l /\ forall x, x ∈ l -> x <= m.
Proof.
  revert m. induction l as [|x l IH]; intros m; [discriminate|].
  change (Math_max (x :: l))
    with (match Math_max l with NegInfinity => Int x | Int m => Int (Z.max x m) end).
  destruct (Math_max l) as [|m'] eqn:E.
  - apply Math_max_nil_iff in E. subst l. intros H. injection H as <-.
    split; [left|]. intros y Hy. apply elem_of_cons in Hy as [-> | Hy]; [lia | inversion Hy].
  - intros H. injection H as <-. destruct (IH m' eq_refl) as [Hin Hle]. split.
    + destruct (Z.max_spec x m') as [[_ ->] | [_ ->]]; [now right | left].
    + intros y Hy. apply elem_of_cons in Hy as [-> | Hy]; [lia|].
      specialize (Hle y Hy). lia.
Qed.




End Winner.

Lemma summarize_shape (rows : list tally_row) :
  exists results total winners,
    summarize rows
    = BResults results total
        (if (length winners =? 1)%nat then head winners else None)
        ((1 <? length winners)%nat && positive_number (Math_max (map votes_of results))) /\
    winners = List.filter (leads (Math_max (map votes_of results))) results /\
    map r_row results = rows.
Proof.
  eexists _, _, _. split; [reflexivity|]. split; [reflexivity|].
  rewrite map_map. simpl. apply map_id.
Qed.


(** ** Storage failures and status codes *)

(** C9 as stated fails on the seeded database: when the query of
    [GET /api/candidates] fails, the answer has status 500 but its error
    text is the storage layer's own message, not the generic one. *)
Lemma storage_message_disclosed :
  let st := initialize 0 empty_store in
  let msg := "SQLITE_IOERR: disk I/O error" in
  let r := snd (handle GetCandidates (fail_at 0 msg) 1 st) in
  status r = 500 /\ payload r = BError msg /\ discloses r msg = true /\
  r ≠ error_middleware.
Proof. vm_compute. repeat split; discriminate. Qed.

Section Failures.

(** Rewrites the outcome of the statements up to the first failing one. *)
Ltac first_failure Hk Hprev :=
  unfold callback, stmt;
  repeat first
    [ rewrite Hk
    | rewrite (Hprev 0%nat) by lia
    | rewrite (Hprev 1%nat) by lia
    | rewrite (Hprev 2%nat) by lia ].

Lemma first_failure_answer (r : request) (f : faults) (now : Z) (st : store)
    (k : nat) (msg : string) :
  f k = Some msg -> (forall j, (j < k)%nat -> f j = None) ->
  (k < checked_statements r st)%nat ->
  snd (handle r f now st) = Resp 500 (BError msg).
Proof.
  intros Hk Hprev Hlt. destruct r; simpl in Hlt; simpl handle.
  - assert (k = 0%nat) as -> by lia. unfold listCandidates. now first_failure Hk Hprev.
  - unfold addCandidate. destruct (required_name name); [|lia].
    destruct k as [|[|k]]; [| |lia]; first_failure Hk Hprev; reflexivity.
  - unfold updateCandidateName. destruct (required_name name); [|lia].
    assert (k = 0%nat) as -> by lia. now first_failure Hk Hprev.
  - unfold removeCandidate. destruct (0 <? Sql.count_votes id st) eqn:E.
    + assert (k = 0%nat) as -> by lia. now first_failure Hk Hprev.
    + destruct k as [|[|k]]; [| |lia]; first_failure Hk Hprev; [reflexivity|].
      now rewrite E.
  - unfold castVote. destruct voterName as [vn|], candidateId as [cid|]; try lia.
    destruct (_ || _); [lia|].
    destruct (Sql.find_voter (Str.trim vn) st) eqn:Ev.
    + assert (k = 0%nat) as -> by lia. now first_failure Hk Hprev.
    + destruct (Sql.find_candidate cid st) eqn:Ec.
      * destruct k as [|[|[|k]]]; [| | |lia]; first_failure Hk Hprev;
          rewrite ?Ev, ?Ec; reflexivity.
      * destruct k as [|[|k]]; [| |lia]; first_failure Hk Hprev;
          rewrite ?Ev, ?Ec; reflexivity.
  - assert (k = 0%nat) as -> by lia. unfold tally. now first_failure Hk Hprev.
  - assert (k = 0%nat) as -> by lia. unfold listVoters. now first_failure Hk Hprev.
  - assert (k = 0%nat) as -> by lia. unfold hasVoted. now first_failure Hk Hprev.
  - assert (k = 0%nat) as -> by lia. unfold setResultsPublished.
    now first_failure Hk Hprev.
  - assert (k = 0%nat) as -> by lia. unfold getSettings. now first_failure Hk Hprev.
  - unfold resetVotes.
    destruct k as [|[|k]]; [| |lia]; first_failure Hk Hprev; reflexivity.
Qed.

Lemma update_name_changes (id : Z) (st : store) :
  (forall c, c ∈ candidates st -> c_id c ≠ id) ->
  filter (fun c => c_id c = id) (candidates st) = [].
Proof.
  intros H. induction (candidates st) as [|c cs IH]; [reflexivity|].
  rewrite filter_cons. case_decide as E.
  - exfalso. apply (H c); [left | exact E].
  - apply IH. intros d Hd. apply H. now right.
Qed.

Lemma refused_status (r : request) (now : Z) (st : store) (kind : error_kind) :
  names_trimmed st -> refused st r kind ->
  status (snd (handle r no_faults now st)) = status_of kind.
Proof.
  intros Htrim H. destruct H; unfold handle.
  - unfold addCandidate. now rewrite H.
  - unfold updateCandidateName. now rewrite H.
  - unfold updateCandidateName, callback, stmt, no_faults, Sql.update_name.
    destruct (required_name name); [|contradiction].
    now rewrite update_name_changes.
  - unfold removeCandidate, callback, stmt, no_faults.
    apply Z.ltb_lt in H. now rewrite H.
  - unfold removeCandidate, callback, stmt, no_faults, Sql.delete_candidate.
    rewrite H. simpl. now rewrite update_name_changes.
  - unfold castVote. destruct voterName, candidateId; try reflexivity. now rewrite H.
  - pose proof (find_voter_spec vn st Htrim) as Hfind.
    rewrite H0 in Hfind. apply bool_decide_eq_true in Hfind as [v Hv].
    unfold castVote, callback, stmt, no_faults. now rewrite H, Hv.
  - pose proof (find_voter_spec vn st Htrim) as Hfind.
    rewrite H0 in Hfind. apply bool_decide_eq_false in Hfind.
    unfold castVote, callback, stmt, no_faults. rewrite H.
    destruct (Sql.find_voter (Str.trim vn) st); [exfalso; eauto|].
    now rewrite (proj2 (find_candidate_none cid st) H1).
Qed.

(** A handler answers 500 only with the message of the first failed
    statement, which is one whose callback it runs. *)
Lemma internal_error_origin (r : request) (f : faults) (now : Z) (st : store) :
  status (snd (handle r f now st)) = 500 ->
  exists k msg,
    f k = Some msg /\ (forall j, (j < k)%nat -> f j = None) /\
    (k < checked_statements r st)%nat /\
    payload (snd (handle r f now st)) = BError msg.
Proof.
  assert (H0 : forall j, (j < 0)%nat -> f j = None) by (intros j Hj; lia).
  assert (H1 : f 0%nat = None -> forall j, (j < 1)%nat -> f j = None).
  { intros E j Hj. now replace j with 0%nat by lia. }
  assert (H2 : f 0%nat = None -> f 1%nat = None -> forall j, (j < 2)%nat -> f j = None).
  { intros E E' j Hj. destruct j as [|[|j]]; [assumption | assumption | lia]. }
  destruct r; simpl handle; cbn [checked_statements].
  - unfold listCandidates, callback, stmt.
    destruct (f 0%nat) eqn:E0; [|discriminate].
    intros _. exists 0%nat. eexists. repeat split; auto.
  - unfold addCandidate, callback, stmt, Sql.insert_candidate.
    destruct (required_name name); [|discriminate].
    destruct (f 0%nat) eqn:E0; [intros _; exists 0%nat; eexists; repeat split; auto|].
    destruct (f 1%nat) eqn:E1; [intros _; exists 1%nat; eexists; repeat split; auto|].
    rewrite next_position_free. discriminate.
  - unfold updateCandidateName, callback, stmt.
    destruct (required_name name); [|discriminate].
    destruct (f 0%nat) eqn:E0; [intros _; exists 0%nat; eexists; repeat split; auto|].
    simpl. destruct (_ =? 0); discriminate.
  - unfold removeCandidate, callback, stmt.
    destruct (f 0%nat) eqn:E0.
    { intros _. exists 0%nat. eexists. repeat split; auto.
      destruct (0 <? _); lia. }
    destruct (0 <? _); [discriminate|].
    destruct (f 1%nat) eqn:E1; [intros _; exists 1%nat; eexists; repeat split; auto|].
    simpl. destruct (_ =? 0); discriminate.
  - unfold castVote, callback, stmt.
    destruct voterName as [vn|], candidateId as [cid|]; try discriminate.
    destruct (_ || _); [discriminate|].
    destruct (f 0%nat) eqn:E0.
    { intros _. exists 0%nat. eexists. repeat split; auto.
      destruct (Sql.find_voter _ _); [lia|]. destruct (Sql.find_candidate _ _); lia. }
    destruct (Sql.find_voter _ _); [discriminate|].
    destruct (f 1%nat) eqn:E1.
    { intros _. exists 1%nat. eexists. repeat split; auto.
      destruct (Sql.find_candidate _ _); lia. }
    destruct (Sql.find_candidate _ _); [|discriminate].
    destruct (f 2%nat) eqn:E2; [|discriminate].
    intros _. exists 2%nat. eexists. repeat split; auto.
  - unfold tally, callback, stmt.
    destruct (f 0%nat) eqn:E0; [|discriminate].
    intros _. exists 0%nat. eexists. repeat split; auto.
  - unfold listVoters, callback, stmt.
    destruct (f 0%nat) eqn:E0; [|discriminate].
    intros _. exists 0%nat. eexists. repeat split; auto.
  - unfold hasVoted, callback, stmt.
    destruct (f 0%nat) eqn:E0; [|discriminate].
    intros _. exists 0%nat. eexists. repeat split; auto.
  - unfold setResultsPublished, callback, stmt.
    destruct (f 0%nat) eqn:E0; [|discriminate].
    intros _. exists 0%nat. eexists. repeat split; auto.
  - unfold getSettings, callback, stmt.
    destruct (f 0%nat) eqn:E0; [|discriminate].
    intros _. exists 0%nat. eexists. repeat split; auto.
  - unfold resetVotes, callback, stmt.
    destruct (f 0%nat) eqn:E0; [intros _; exists 0%nat; eexists; repeat split; auto|].
    simpl. destruct (f 1%nat) eqn:E1; [|discriminate].
    intros _. exists 1%nat. eexists. repeat split; auto.
Qed.

End Failures.

(** C9, amended: when a statement whose callback the handler runs fails,
    the answer is status 500 with the storage layer's own message as
    error text; a handler answers 500 in no other case; a validation
    failure is answered with 400, an unknown id with 404 and a conflict
    with 400. *)
Theorem failures_and_statuses (r : request) (now : Z) (st : store) :
  (forall f k msg,
     f k = Some msg -> (forall j, (j < k)%nat -> f j = None) ->
     (k < checked_statements r st)%nat ->
     snd (handle r f now st) = Resp 500 (BError msg)) /\
  (forall f,
     status (snd (handle r f now st)) = 500 ->
     exists k msg,
       f k = Some msg /\ (forall j, (j < k)%nat -> f j = None) /\
       (k < checked_statements r st)%nat /\
       payload (snd (handle r f now st)) = BError msg) /\
  (forall kind,
     names_trimmed st -> refused st r kind ->
     status (snd (handle r no_faults now st)) = status_of kind) /\
  status_of ValidationError = 400 /\ status_of NotFoundError = 404 /\
  status_of ConflictError = 400.
Proof.
  split; [|split; [|split]].
  - intros f k msg. apply first_failure_answer.
  - intros f. apply internal_error_origin.
  - intros kind Htrim H. now apply refused_status.
  - repeat split.
Qed.

(** ** Percentages: the error of the double-precision computation *)

Section Scaling.

Lemma round_half_even_near (a b : Z) :
  0 < b -> Z.abs (2 * (b * Num.round_half_even a b - a)) <= b.
Proof.
  intros Hb. unfold Num.round_half_even.
  pose proof (Z.div_mod a b ltac:(lia)) as Hdm.
  pose proof (Z.mod_pos_bound a b Hb) as Hr.
  destruct (2 * (a mod b) <? b) eqn:E1; [apply Z.ltb_lt in E1; nia|].
  apply Z.ltb_ge in E1.
  destruct (b <? 2 * (a mod b)) eqn:E2; [apply Z.ltb_lt in E2; nia|].
  apply Z.ltb_ge in E2.
  destruct (Z.even (a / b)); nia.
Qed.

Lemma pow2_pos (e : Z) : 0 < 2 ^ Z.max 0 e.
Proof. apply Z.pow_pos_nonneg; lia. Qed.

Lemma nearest_scaled (a b : Z) :
  0 < a -> 0 < b ->
  let x := Num.nearest a b in
  let A := a * 2 ^ Z.max 0 (- Num.expo x) in
  let B := b * 2 ^ Z.max 0 (Num.expo x) in
  0 < B /\ Z.abs (2 * (B * Num.mant x - A)) <= B /\ 2 ^ 52 * B <= A /\ A < 2 ^ 53 * B.
Proof.
  intros Ha Hb. unfold Num.nearest.
  destruct (a =? 0) eqn:E0; [lia|]. cbv zeta.
  set (e0 := Z.log2 a - Z.log2 b - 52).
  pose proof (Z.log2_spec a Ha) as [Hla1 Hla2].
  pose proof (Z.log2_spec b Hb) as [Hlb1 Hlb2].
  pose proof (Z.log2_nonneg a) as Hla0. pose proof (Z.log2_nonneg b) as Hlb0.
  assert (Hsa : 2 ^ Z.succ (Z.log2 a) = 2 * 2 ^ Z.log2 a) by (rewrite Z.pow_succ_r; lia).
  assert (Hsb : 2 ^ Z.succ (Z.log2 b) = 2 * 2 ^ Z.log2 b) by (rewrite Z.pow_succ_r; lia).
  set (La := 2 ^ Z.log2 a) in *. set (Lb := 2 ^ Z.log2 b) in *.
  assert (HB : forall e, 0 < b * 2 ^ Z.max 0 e).
  { intros e. apply Z.mul_pos_pos; [lia | apply pow2_pos]. }
  assert (H53 : 2 ^ 53 = 2 * 2 ^ 52) by reflexivity.
  set (K := 2 ^ 52) in *. assert (HK : 0 < K) by reflexivity.
  destruct (K * (b * 2 ^ Z.max 0 e0) <=? a * 2 ^ Z.max 0 (- e0)) eqn:E;
    cbn [Num.expo Num.mant];
    (split; [apply HB|]); (split; [apply round_half_even_near, HB|]).
  - apply Z.leb_le in E. split; [exact E|]. clear HB.
    destruct (Z.le_gt_cases 0 e0) as [He|He].
    + rewrite (Z.max_r 0 e0), (Z.max_l 0 (- e0)) in E by lia.
      rewrite (Z.max_r 0 e0), (Z.max_l 0 (- e0)) by lia.
      rewrite Z.pow_0_r, Z.mul_1_r in *.
      assert (Hp : La = Lb * K * 2 ^ e0).
      { unfold La, Lb, K. rewrite <- !Z.pow_add_r by lia. f_equal. lia. }
      assert (0 < 2 ^ e0) by (apply Z.pow_pos_nonneg; lia). nia.
    + rewrite (Z.max_l 0 e0), (Z.max_r 0 (- e0)) in E by lia.
      rewrite (Z.max_l 0 e0), (Z.max_r 0 (- e0)) by lia.
      rewrite Z.pow_0_r, Z.mul_1_r in *.
      assert (Hp : La * 2 ^ (- e0) = Lb * K).
      { unfold La, Lb, K. rewrite <- !Z.pow_add_r by lia. f_equal. lia. }
      assert (0 < 2 ^ (- e0)) by (apply Z.pow_pos_nonneg; lia). nia.
  - apply Z.leb_gt in E. clear HB.
    destruct (Z.le_gt_cases 1 e0) as [He|He].
    + rewrite (Z.max_r 0 e0), (Z.max_l 0 (- e0)) in E by lia.
      rewrite (Z.max_r 0 (e0 - 1)), (Z.max_l 0 (- (e0 - 1))) by lia.
      rewrite Z.pow_0_r, Z.mul_1_r in *.
      assert (Hp : La = Lb * K * 2 ^ e0).
      { unfold La, Lb, K. rewrite <- !Z.pow_add_r by lia. f_equal. lia. }
      assert (Hq : 2 ^ e0 = 2 * 2 ^ (e0 - 1)).
      { rewrite <- (Z.pow_succ_r 2 (e0 - 1)) by lia. f_equal. lia. }
      assert (0 < 2 ^ (e0 - 1)) by (apply Z.pow_pos_nonneg; lia). nia.
    + rewrite (Z.max_l 0 e0), (Z.max_r 0 (- e0)) in E by lia.
      rewrite (Z.max_l 0 (e0 - 1)), (Z.max_r 0 (- (e0 - 1))) by lia.
      rewrite Z.pow_0_r, Z.mul_1_r in *.
      assert (Hp : La * 2 ^ (- e0) = Lb * K).
      { unfold La, Lb, K. rewrite <- !Z.pow_add_r by lia. f_equal. lia. }
      assert (Hq : 2 ^ (- (e0 - 1)) = 2 * 2 ^ (- e0)).
      { rewrite <- (Z.pow_succ_r 2 (- e0)) by lia. f_equal. lia. }
      assert (0 < 2 ^ (- e0)) by (apply Z.pow_pos_nonneg; lia). nia.
Qed.

Lemma den_pos (x : Num.double) : 0 < Num.den x.
Proof. apply pow2_pos. Qed.




End Scaling.

Section Rounding.

Local Open Scope Q_scope.



Lemma inject_pos (z : Z) : (0 < z)%Z -> 0 < inject_Z z.
Proof. intros H. change 0 with (inject_Z 0). now rewrite <- Zlt_Qlt. Qed.


Lemma value_exact (x : Num.double) (n : Z) :
  (Num.num x = n * Num.den x)%Z -> Num.value x == inject_Z n.
Proof.
  intros H. unfold Num.value. rewrite H, inject_Z_mult. field.
  apply Qnot_eq_sym, Qlt_not_eq, inject_pos, den_pos.
Qed.





End Rounding.

Section Mantissa.

(** The mantissa chosen by [nearest] has 53 bits (or is 2^53, the next
    power of two). *)
Lemma nearest_mantissa (a b : Z) :
  0 < a -> 0 < b -> 2 ^ 52 <= Num.mant (Num.nearest a b) <= 2 ^ 53.
Proof.
  intros Ha Hb. destruct (nearest_scaled a b Ha Hb) as (HB & Hnear & Hlow & Hhigh).
  change (2 ^ 53) with (2 * 2 ^ 52) in *.
  set (K := 2 ^ 52) in *. assert (HK : 0 < K) by reflexivity.
  set (m := Num.mant (Num.nearest a b)) in *.
  set (B := b * 2 ^ Z.max 0 (Num.expo (Num.nearest a b))) in *.
  set (A := a * 2 ^ Z.max 0 (- Num.expo (Num.nearest a b))) in *.
  split; nia.
Qed.

(** On 23 / 80 * 100 the model computes the double that the standard
    library's IEEE 754 specification computes. *)
Example nearest_matches_SpecFloat :
  SFmul 53 1024
    (SFdiv 53 1024 (S754_finite false 23 0) (S754_finite false 80 0))
    (S754_finite false 100 0)
  = S754_finite false 8092405580431359 (-48) /\
  Num.mul (Num.div (Num.of_int 23) (Num.of_int 80)) (Num.of_int 100)
  = Num.mkDouble 8092405580431359 (-48).
Proof. split; vm_compute; reflexivity. Qed.

End Mantissa.

(** ** Percentages of a tally *)

Section Percentages.

Lemma insert_by_position_perm (c : candidate) (l : list candidate) :
  Sql.insert_by_position c l ≡ₚ c :: l.
Proof.
  induction l as [|d l IH]; [reflexivity|].
  simpl. destruct (c_position c <=? c_position d); [reflexivity|].
  rewrite IH. apply Permutation_swap.
Qed.

Lemma order_by_position_perm (l : list candidate) : Sql.order_by_position l ≡ₚ l.
Proof.
  induction l as [|c l IH]; [reflexivity|].
  simpl. rewrite insert_by_position_perm. now rewrite IH.
Qed.

Lemma foldl_sum {A} (f : A -> Z) (l : list A) (a : Z) :
  foldl (fun s x => s + f x) a l = a + sum_of (map f l).
Proof.
  revert a. induction l as [|x l IH]; intros a; simpl; [lia|].
  rewrite IH. lia.
Qed.

Lemma sum_of_bound (l : list Z) (x : Z) :
  Forall (fun y => 0 <= y) l -> x ∈ l -> 0 <= x <= sum_of l.
Proof.
  induction 1 as [|y l Hy Hl IH]; intros Hx; [inversion Hx|].
  assert (0 <= sum_of l).
  { clear IH Hx. induction Hl; simpl; [lia|]. simpl in *. lia. }
  simpl. apply elem_of_cons in Hx as [-> | Hx]; [lia|].
  specialize (IH Hx). lia.
Qed.


Lemma results_rows (st : store) :
  Forall (fun row => 0 <= t_vote_count row) (Sql.select_results st).
Proof.
  unfold Sql.select_results. apply Forall_forall. intros row Hrow.
  apply list_elem_of_In, in_map_iff in Hrow as (c & <- & _). simpl.
  unfold Sql.count_votes. lia.
Qed.


End Percentages.

(** An exact half can also go up: one vote of sixteen is 6.25 percent and
    is reported as "6.3". *)
Example exact_half_rounds_up :
  percentage_of 1 16 = PFixed1 63 /\ rounded_share 1 16 = 63 /\
  fixed1_text 63 = "6.3".
Proof. vm_compute. repeat split. Qed.



(** ** Stores the server can reach *)

Section Reachable.

Lemma has_publish_row_alter (g : setting -> setting) (st : store) :
  has_publish_row st ->
  has_publish_row (with_settings st (alter g "results_published" (settings st))).
Proof.
  intros [s Hs]. unfold has_publish_row. simpl.
  rewrite lookup_alter_eq, Hs. now eexists.
Qed.

Lemma insert_setting_row (key value : string) (now : Z) (st : store) :
  is_Some (settings (Sql.insert_setting_or_ignore key value now st) !! key).
Proof.
  unfold Sql.insert_setting_or_ignore.
  destruct (settings st !! key) as [s|] eqn:E.
  - rewrite E. now eexists.
  - simpl. rewrite lookup_insert_eq. now eexists.
Qed.

Lemma insert_setting_keeps (k key value : string) (now : Z) (st : store) :
  is_Some (settings st !! k) ->
  is_Some (settings (Sql.insert_setting_or_ignore key value now st) !! k).
Proof.
  intros H. unfold Sql.insert_setting_or_ignore.
  destruct (settings st !! key) as [s|] eqn:E; [exact H|].
  simpl. destruct (decide (key = k)) as [<- | Hne].
  - rewrite lookup_insert_eq. now eexists.
  - now rewrite lookup_insert_ne.
Qed.

(** Start-up creates the [results_published] row on any database. *)
Lemma initialize_publish_row (now : Z) (st : store) :
  has_publish_row (initialize now st).
Proof.
  unfold initialize, has_publish_row.
  apply insert_setting_keeps, insert_setting_row.
Qed.

Lemma initialize_empty (now : Z) :
  names_trimmed (initialize now empty_store) /\
  one_vote_each (initialize now empty_store) /\
  has_publish_row (initialize now empty_store) /\
  map c_position (candidates (initialize now empty_store)) = [1; 2; 3; 4].
Proof.
  split; [constructor|]. split; [constructor|].
  split; [apply initialize_publish_row | reflexivity].
Qed.

(** Only [castVote] and [resetVotes] touch the votes; only
    [setResultsPublished] and [resetVotes] touch the settings, and they
    alter the one row. *)
Lemma handle_keeps (r : request) (f : faults) (now : Z) (st : store) :
  names_trimmed st -> one_vote_each st -> has_publish_row st ->
  names_trimmed (fst (handle r f now st)) /\
  one_vote_each (fst (handle r f now st)) /\
  has_publish_row (fst (handle r f now st)).
Proof.
  intros Ht Ho Hp. destruct r; unfold handle.
  - unfold listCandidates, callback, stmt. destruct (f 0%nat); now repeat split.
  - destruct (addCandidate_step f now name st) as [[_ ->] | (s & _ & _ & ->)];
      now repeat split.
  - unfold updateCandidateName, callback, stmt.
    destruct (required_name name); [|now repeat split].
    destruct (f 0%nat); [now repeat split|]. simpl.
    destruct (_ =? 0); now repeat split.
  - unfold removeCandidate, callback, stmt.
    destruct (f 0%nat); [now repeat split|].
    destruct (0 <? _); [now repeat split|].
    destruct (f 1%nat); [now repeat split|]. simpl.
    destruct (_ =? 0); [now repeat split|].
    destruct (f 2%nat); [now repeat split|].
    unfold Sql.shift_positions_after. destruct (Sql.position_of _ _); now repeat split.
  - destruct (castVote_keeps f now voterName candidateId st Ht Ho) as (Ht' & Ho' & _).
    split; [exact Ht'|]. split; [exact Ho'|].
    destruct (castVote_step f now voterName candidateId st Ht)
      as [[_ ->] | (_ & _ & v & _ & _ & _)]; [exact Hp|].
    revert Hp. unfold castVote, callback, stmt, has_publish_row.
    destruct voterName, candidateId; try easy.
    destruct (_ || _); [easy|]. destruct (f 0%nat); [easy|].
    destruct (Sql.find_voter _ _); [easy|]. destruct (f 1%nat); [easy|].
    destruct (Sql.find_candidate _ _); [|easy]. destruct (f 2%nat); easy.
  - unfold tally, callback, stmt. destruct (f 0%nat); now repeat split.
  - unfold listVoters, callback, stmt. destruct (f 0%nat); now repeat split.
  - unfold hasVoted, callback, stmt. destruct (f 0%nat); now repeat split.
  - unfold setResultsPublished, callback, stmt. destruct (f 0%nat); [now repeat split|].
    simpl. split; [exact Ht|]. split; [exact Ho|]. now apply has_publish_row_alter.
  - unfold getSettings, callback, stmt. destruct (f 0%nat); now repeat split.
  - unfold resetVotes, callback, stmt. destruct (f 0%nat); [now repeat split|]. simpl.
    destruct (f 1%nat); simpl.
    + split; [constructor|]. split; [constructor | exact Hp].
    + split; [constructor|]. split; [constructor|].
      now apply (has_publish_row_alter _ (with_votes st [] (vote_seq st))).
Qed.

End Reachable.

(** * Further properties of the server *)

(** ** Referential integrity *)

Section References.

Lemma find_candidate_some (cid : Z) (st : store) (c : candidate) :
  Sql.find_candidate cid st = Some c -> c ∈ candidates st /\ c_id c = cid.
Proof.
  unfold Sql.find_candidate. intros H. apply find_some in H as [Hin Heq].
  split; [now apply list_elem_of_In | lia].
Qed.

Lemma count_votes_zero (id : Z) (st : store) :
  Sql.count_votes id st <= 0 ->
  forall v, v ∈ votes st -> v_candidate_id v ≠ id.
Proof.
  unfold Sql.count_votes. intros H v Hv Heq.
  assert (Hin : v ∈ filter (fun v => v_candidate_id v = id) (votes st))
    by (apply list_elem_of_filter; now split).
  destruct (filter _ (votes st)); [inversion Hin | simpl in H; lia].
Qed.

Lemma votes_refer_more (st : store) (cs : list candidate) (seq : Z) :
  votes_refer st ->
  (forall c, c ∈ candidates st ->
     (exists v, v ∈ votes st /\ v_candidate_id v = c_id c) ->
     exists c', c' ∈ cs /\ c_id c' = c_id c) ->
  votes_refer (with_candidates st cs seq).
Proof.
  unfold votes_refer. simpl. intros H Hcs.
  apply Forall_forall. intros v Hv.
  destruct (proj1 (Forall_forall _ _) H v Hv) as (c & Hc & Hid).
  destruct (Hcs c Hc) as (c' & Hc' & Hid'); [exists v; now split|].
  exists c'. split; [exact Hc' | congruence].
Qed.

End References.

(** The store [removeCandidate] leaves when it answers 200. *)
Lemma removeCandidate_store (f : faults) (id : Z) (st : store) :
  fst (removeCandidate f id st) = st \/
  (Sql.count_votes id st <= 0 /\
   fst (removeCandidate f id st) = fst (Sql.delete_candidate id st)).
Proof.
  unfold removeCandidate, callback, stmt.
  destruct (f 0%nat); [now left|].
  destruct (0 <? Sql.count_votes id st) eqn:E; [now left|].
  apply Z.ltb_ge in E.
  destruct (f 1%nat); [now left|].
  right. split; [exact E|].
  change (Sql.delete_candidate id st)
    with (fst (Sql.delete_candidate id st), snd (Sql.delete_candidate id st)).
  cbv beta iota.
  destruct (snd (Sql.delete_candidate id st) =? 0); [reflexivity|].
  destruct (f 2%nat); [reflexivity|]. simpl. apply shift_after_delete.
Qed.

(** The store [updateCandidateName] leaves. *)
Lemma updateCandidateName_store (f : faults) (id : Z) (name : option string) (st : store) :
  fst (updateCandidateName f id name st) = st \/
  (exists s, required_name name = Some s /\
             fst (updateCandidateName f id name st)
             = fst (Sql.update_name id (Str.trim s) st)).
Proof.
  unfold updateCandidateName, callback, stmt.
  destruct (required_name name) as [s|]; [|now left].
  destruct (f 0%nat); [now left|].
  right. exists s. split; [reflexivity|]. simpl.
  destruct (_ =? 0); reflexivity.
Qed.

(** The store [castVote] leaves when it answers 200. *)
Lemma castVote_store (f : faults) (now : Z) (voterName : option string)
    (candidateId : option Z) (st : store) :
  (succeeded (snd (castVote f now voterName candidateId st)) = false /\
   fst (castVote f now voterName candidateId st) = st) \/
  (exists vn cid c,
     voterName = Some vn /\ candidateId = Some cid /\
     Sql.find_voter (Str.trim vn) st = None /\
     Sql.find_candidate cid st = Some c /\
     snd (castVote f now voterName candidateId st)
     = Resp 200 (BVoteCast (vote_seq st + 1) "Vote cast successfully") /\
     fst (castVote f now voterName candidateId st)
     = fst (Sql.insert_vote (Str.trim vn) cid now st)).
Proof.
  unfold castVote, callback, stmt.
  destruct voterName as [vn|], candidateId as [cid|]; try (left; now split).
  destruct (_ || _); [left; now split|].
  destruct (f 0%nat); [left; now split|].
  destruct (Sql.find_voter (Str.trim vn) st) eqn:Ev; [left; now split|].
  destruct (f 1%nat); [left; now split|].
  destruct (Sql.find_candidate cid st) as [c|] eqn:Ec; [|left; now split].
  destruct (f 2%nat); [left; now split|].
  right. exists vn, cid, c. now repeat split.
Qed.

(** X1: whatever the request and whichever statements fail, every vote
    keeps naming a candidate of the table: a vote is only recorded for a
    candidate that exists, and a candidate with votes is not deleted. *)
Theorem handle_keeps_references (r : request) (f : faults) (now : Z) (st : store) :
  votes_refer st -> votes_refer (fst (handle r f now st)).
Proof.
  intros H. destruct r; unfold handle.
  - unfold listCandidates, callback, stmt. now destruct (f 0%nat).
  - destruct (addCandidate_step f now name st) as [[_ ->] | (s & _ & _ & ->)]; [exact H|].
    apply votes_refer_more; [exact H|]. intros c Hc _. exists c.
    split; [apply elem_of_app; now left | reflexivity].
  - destruct (updateCandidateName_store f id name st) as [-> | (s & _ & ->)]; [exact H|].
    apply votes_refer_more; [exact H|]. intros c Hc _.
    eexists. split; [apply list_elem_of_fmap_2, Hc|].
    simpl. now destruct (c_id c =? id).
  - destruct (removeCandidate_store f id st) as [-> | (Hz & ->)]; [exact H|].
    apply votes_refer_more; [exact H|]. intros c Hc (v & Hv & Hid).
    exists c. split; [|reflexivity].
    apply list_elem_of_filter. split; [|exact Hc].
    rewrite <- Hid. now apply (count_votes_zero id st Hz).
  - destruct (castVote_store f now voterName candidateId st)
      as [[_ ->] | (vn & cid & c & _ & _ & _ & Hc & _ & ->)]; [exact H|].
    unfold votes_refer. simpl. apply Forall_app. split; [exact H|].
    constructor; [|constructor]. simpl. exists c. now apply find_candidate_some.
  - unfold tally, callback, stmt. now destruct (f 0%nat).
  - unfold listVoters, callback, stmt. now destruct (f 0%nat).
  - unfold hasVoted, callback, stmt. now destruct (f 0%nat).
  - unfold setResultsPublished, callback, stmt. now destruct (f 0%nat).
  - unfold getSettings, callback, stmt. now destruct (f 0%nat).
  - unfold resetVotes, callback, stmt. destruct (f 0%nat); [exact H|]. simpl.
    destruct (f 1%nat); constructor.
Qed.

Lemma handle_keeps_references_witness :
  let st := fst (castVote no_faults 1 (Some "Alice") (Some 2) (initialize 0 empty_store)) in
  votes_refer st /\
  votes_refer (fst (handle (DeleteCandidate 2) no_faults 2 st)) /\
  map c_id (candidates (fst (handle (DeleteCandidate 2) no_faults 2 st))) = [1; 2; 3; 4].
Proof.
  intros st.
  assert (H : votes_refer st).
  { constructor; [|constructor]. eexists. split; [right; left | reflexivity]. }
  split; [exact H|]. split; [|reflexivity].
  exact (handle_keeps_references (DeleteCandidate 2) no_faults 2 st H).
Defined.

(** ** Row ids and positions *)

Section Ids.

Lemma update_name_ids (id : Z) (name : string) (l : list candidate) :
  map c_id (map (fun c => if c_id c =? id
                          then mkCandidate (c_id c) name (c_position c) (c_created_at c)
                          else c) l)
  = map c_id l.
Proof.
  rewrite map_map. apply map_ext. intros c. now destruct (c_id c =? id).
Qed.

Lemma update_name_positions (id : Z) (name : string) (l : list candidate) :
  map c_position (map (fun c => if c_id c =? id
                                then mkCandidate (c_id c) name (c_position c) (c_created_at c)
                                else c) l)
  = map c_position l.
Proof.
  rewrite map_map. apply map_ext. intros c. now destruct (c_id c =? id).
Qed.

Lemma NoDup_map_filter {A B} (g : A -> B) (P : A -> Prop)
    `{!forall x, Decision (P x)} (l : list A) :
  NoDup (map g l) -> NoDup (map g (filter P l)).
Proof.
  intros Hnd. apply (sublist_NoDup (map g (filter P l)) (map g l)); [exact Hnd|].
  apply (fmap_sublist g). apply sublist_filter.
Qed.

Lemma Forall_kept {A} (Q P : A -> Prop) `{!forall x, Decision (P x)} (l : list A) :
  Forall Q l -> Forall Q (filter P l).
Proof.
  intros HQ. apply Forall_forall. intros x Hx.
  apply list_elem_of_filter in Hx as [_ Hx].
  exact (proj1 (Forall_forall _ _) HQ x Hx).
Qed.

Lemma NoDup_snoc_fresh (l : list Z) (x : Z) :
  NoDup l -> Forall (fun y => y < x) l -> NoDup (l ++ [x]).
Proof.
  intros Hl Hlt. apply NoDup_app. split; [exact Hl|]. split; [|apply NoDup_singleton].
  intros y Hy Hx. apply list_elem_of_singleton in Hx. subst y.
  pose proof (proj1 (Forall_forall _ _) Hlt x Hy) as Hxx. simpl in Hxx. lia.
Qed.

Lemma Forall_map_lt {A} (g : A -> Z) (l : list A) (n : Z) :
  Forall (fun a => g a <= n) l -> Forall (fun y => y < n + 1) (map g l).
Proof.
  intros H. apply Forall_map. eapply Forall_impl; [exact H|]. simpl. intros. lia.
Qed.

End Ids.

(** X2: row ids are never reused.  Whatever the request and whichever
    statements fail, ids stay pairwise distinct and below the counters,
    the counters never decrease, and a row of the new tables either
    carries the id of an old row or an id above the old counter. *)
Theorem handle_keeps_ids (r : request) (f : faults) (now : Z) (st : store) :
  ids_issued st ->
  ids_issued (fst (handle r f now st)) /\
  candidate_seq st <= candidate_seq (fst (handle r f now st)) /\
  vote_seq st <= vote_seq (fst (handle r f now st)) /\
  (forall c, c ∈ candidates (fst (handle r f now st)) ->
     c_id c ∈ map c_id (candidates st) \/ candidate_seq st < c_id c) /\
  (forall v, v ∈ votes (fst (handle r f now st)) ->
     v ∈ votes st \/ vote_seq st < v_id v).
Proof.
  intros (Hc1 & Hc2 & Hv1 & Hv2).
  assert (Hsame : ids_issued st /\ candidate_seq st <= candidate_seq st /\
                  vote_seq st <= vote_seq st /\
                  (forall c, c ∈ candidates st ->
                     c_id c ∈ map c_id (candidates st) \/ candidate_seq st < c_id c) /\
                  (forall v, v ∈ votes st -> v ∈ votes st \/ vote_seq st < v_id v)).
  { split; [now repeat split|]. split; [lia|]. split; [lia|]. split.
    - intros c Hc. left. apply list_elem_of_fmap_2, Hc.
    - intros v Hv. now left. }
  destruct r; unfold handle.
  - unfold listCandidates, callback, stmt. now destruct (f 0%nat).
  - destruct (addCandidate_step f now name st) as [[_ ->] | (s & _ & _ & ->)];
      [exact Hsame|].
    unfold added, ids_issued. simpl. split; [|split; [lia|split; [lia|split]]].
    + rewrite map_app. simpl. split; [|split; [|now split]].
      * apply NoDup_snoc_fresh; [exact Hc1 | now apply Forall_map_lt].
      * apply Forall_app. split.
        -- eapply Forall_impl; [exact Hc2|]. simpl. intros. lia.
        -- constructor; [simpl; lia | constructor].
    + intros c Hc. apply elem_of_app in Hc as [Hc | Hc].
      * left. apply list_elem_of_fmap_2, Hc.
      * apply list_elem_of_singleton in Hc. subst c. right. simpl. lia.
    + intros v Hv. now left.
  - destruct (updateCandidateName_store f id name st) as [-> | (s & _ & ->)];
      [exact Hsame|].
    unfold ids_issued, Sql.update_name. simpl.
    rewrite update_name_ids. split; [|split; [lia|split; [lia|split]]].
    + split; [exact Hc1|]. split; [|now split].
      apply Forall_map. eapply Forall_impl; [exact Hc2|]. simpl.
      intros c Hc. now destruct (c_id c =? id).
    + intros c Hc. left. rewrite <- (update_name_ids id (Str.trim s)).
      apply list_elem_of_fmap_2, Hc.
    + intros v Hv. now left.
  - destruct (removeCandidate_store f id st) as [-> | (_ & ->)]; [exact Hsame|].
    unfold ids_issued, Sql.delete_candidate. simpl.
    split; [|split; [lia|split; [lia|split]]].
    + split; [now apply NoDup_map_filter|]. split; [|now split].
      now apply Forall_kept.
    + intros c Hc. apply list_elem_of_filter in Hc as [_ Hc].
      left. apply list_elem_of_fmap_2, Hc.
    + intros v Hv. now left.
  - destruct (castVote_store f now voterName candidateId st)
      as [[_ ->] | (vn & cid & c & _ & _ & _ & _ & _ & ->)]; [exact Hsame|].
    unfold ids_issued, Sql.insert_vote. simpl.
    split; [|split; [lia|split; [lia|split]]].
    + split; [exact Hc1|]. split; [exact Hc2|]. rewrite map_app. simpl. split.
      * apply NoDup_snoc_fresh; [exact Hv1 | now apply Forall_map_lt].
      * apply Forall_app. split.
        -- eapply Forall_impl; [exact Hv2|]. simpl. intros. lia.
        -- constructor; [simpl; lia | constructor].
    + intros c' Hc'. left. apply list_elem_of_fmap_2, Hc'.
    + intros v Hv. apply elem_of_app in Hv as [Hv | Hv]; [now left|].
      apply list_elem_of_singleton in Hv. subst v. right. simpl. lia.
  - unfold tally, callback, stmt. now destruct (f 0%nat).
  - unfold listVoters, callback, stmt. now destruct (f 0%nat).
  - unfold hasVoted, callback, stmt. now destruct (f 0%nat).
  - unfold setResultsPublished, callback, stmt. destruct (f 0%nat); [exact Hsame|].
    exact Hsame.
  - unfold getSettings, callback, stmt. now destruct (f 0%nat).
  - unfold resetVotes, callback, stmt. destruct (f 0%nat); [exact Hsame|]. simpl.
    assert (Hreset : forall m,
              ids_issued (mkStore (candidates st) [] m (candidate_seq st) (vote_seq st))).
    { intros m. unfold ids_issued. simpl. repeat split; auto; constructor. }
    destruct (f 1%nat); simpl; (split; [apply Hreset|]);
      (split; [lia|]); (split; [lia|]);
      (split; [intros c Hc; left; apply list_elem_of_fmap_2, Hc
              | intros v Hv; inversion Hv]).
Qed.

Lemma handle_keeps_ids_witness :
  let st := fst (handle (DeleteCandidate 4) no_faults 1 (initialize 0 empty_store)) in
  ids_issued st /\
  map c_id (candidates st) = [1; 2; 3] /\
  map c_id (candidates (fst (handle (PostCandidate (Some "Eve")) no_faults 2 st)))
  = [1; 2; 3; 5] /\
  ids_issued (fst (handle (PostCandidate (Some "Eve")) no_faults 2 st)).
Proof.
  intros st.
  assert (H : ids_issued st).
  { unfold ids_issued. vm_compute. repeat split; repeat constructor;
      try (intros Hin; repeat (apply elem_of_cons in Hin as [Hin | Hin]; [discriminate|]);
           inversion Hin); discriminate. }
  split; [exact H|]. split; [reflexivity|]. split; [reflexivity|].
  exact (proj1 (handle_keeps_ids (PostCandidate (Some "Eve")) no_faults 2 st H)).
Defined.

(** X3: positions stay pairwise distinct and at least 1 under every
    request, so the UNIQUE index on [position] is never violated, also
    after a deletion has left a gap. *)
Theorem handle_keeps_positions (r : request) (f : faults) (now : Z) (st : store) :
  positions_distinct st -> positions_distinct (fst (handle r f now st)).
Proof.
  intros [Hnd Hpos]. assert (H : positions_distinct st) by now split.
  destruct r; unfold handle.
  - unfold listCandidates, callback, stmt. now destruct (f 0%nat).
  - destruct (addCandidate_step f now name st) as [[_ ->] | (s & _ & _ & ->)]; [exact H|].
    unfold added, positions_distinct. simpl. rewrite map_app. simpl.
    pose proof (next_position_free st) as Hfree.
    pose proof (next_position_max st) as Hmax. cbv zeta in Hmax.
    set (p := next_position (Sql.max_position st)) in *.
    split.
    + apply NoDup_app. split; [exact Hnd|]. split; [|apply NoDup_singleton].
      intros q Hq Hp. apply list_elem_of_singleton in Hp. subst q.
      apply list_elem_of_In, in_map_iff in Hq as (c & Hc & Hin).
      assert (existsb (fun c => c_position c =? p) (candidates st) = true); [|congruence].
      apply existsb_exists. exists c. split; [exact Hin | lia].
    + apply Forall_app. split; [exact Hpos|]. constructor; [|constructor]. simpl.
      destruct Hmax as [[_ ->] | (c & Hc & -> & _)]; [lia|].
      pose proof (proj1 (Forall_forall _ _) Hpos c Hc) as Hc1. simpl in Hc1. lia.
  - destruct (updateCandidateName_store f id name st) as [-> | (s & _ & ->)]; [exact H|].
    unfold positions_distinct, Sql.update_name. simpl.
    rewrite update_name_positions. split; [exact Hnd|].
    apply Forall_map. eapply Forall_impl; [exact Hpos|]. simpl.
    intros c Hc. now destruct (c_id c =? id).
  - destruct (removeCandidate_store f id st) as [-> | (_ & ->)]; [exact H|].
    unfold positions_distinct, Sql.delete_candidate. simpl.
    split; [now apply NoDup_map_filter | now apply Forall_kept].
  - destruct (castVote_store f now voterName candidateId st)
      as [[_ ->] | (vn & cid & c & _ & _ & _ & _ & _ & ->)]; exact H.
  - unfold tally, callback, stmt. now destruct (f 0%nat).
  - unfold listVoters, callback, stmt. now destruct (f 0%nat).
  - unfold hasVoted, callback, stmt. now destruct (f 0%nat).
  - unfold setResultsPublished, callback, stmt. now destruct (f 0%nat).
  - unfold getSettings, callback, stmt. now destruct (f 0%nat).
  - unfold resetVotes, callback, stmt. destruct (f 0%nat); [exact H|]. simpl.
    now destruct (f 1%nat).
Qed.

Lemma handle_keeps_positions_witness :
  let st := fst (handle (DeleteCandidate 2) no_faults 1 (initialize 0 empty_store)) in
  positions_distinct st /\
  map c_position (candidates (fst (handle (PostCandidate (Some "Eve")) no_faults 2 st)))
  = [1; 3; 4; 5] /\
  positions_distinct (fst (handle (PostCandidate (Some "Eve")) no_faults 2 st)).
Proof.
  intros st.
  assert (H : positions_distinct st).
  { unfold positions_distinct. vm_compute. split; repeat constructor;
      try (intros Hin; repeat (apply elem_of_cons in Hin as [Hin | Hin]; [discriminate|]);
           inversion Hin); discriminate. }
  split; [exact H|]. split; [reflexivity|].
  exact (handle_keeps_positions (PostCandidate (Some "Eve")) no_faults 2 st H).
Defined.

(** ** Start-up *)

Section Startup.

Lemma insert_setting_candidates (key value : string) (now : Z) (st : store) :
  candidates (Sql.insert_setting_or_ignore key value now st) = candidates st /\
  votes (Sql.insert_setting_or_ignore key value now st) = votes st /\
  candidate_seq (Sql.insert_setting_or_ignore key value now st) = candidate_seq st /\
  vote_seq (Sql.insert_setting_or_ignore key value now st) = vote_seq st.
Proof.
  unfold Sql.insert_setting_or_ignore. now destruct (settings st !! key).
Qed.

Lemma insert_setting_present (key value : string) (now : Z) (st : store) :
  is_Some (settings st !! key) ->
  Sql.insert_setting_or_ignore key value now st = st.
Proof.
  intros [s Hs]. unfold Sql.insert_setting_or_ignore. now rewrite Hs.
Qed.

(** The tables the seed leaves on a database without candidates. *)
Lemma initialize_seeds (now : Z) (st : store) :
  candidates st = [] ->
  candidates (initialize now st)
  = [mkCandidate (candidate_seq st + 1) "Alice Johnson" 1 now;
     mkCandidate (candidate_seq st + 1 + 1) "Bob Smith" 2 now;
     mkCandidate (candidate_seq st + 1 + 1 + 1) "Carol Wilson" 3 now;
     mkCandidate (candidate_seq st + 1 + 1 + 1 + 1) "David Brown" 4 now] /\
  candidate_seq (initialize now st) = candidate_seq st + 1 + 1 + 1 + 1.
Proof.
  intros Hnil. unfold initialize.
  destruct (insert_setting_candidates "winner_announced" "false" now
              (Sql.insert_setting_or_ignore "results_published" "false" now
                 (if (length (candidates st) =? 0)%nat
                  then foldl (fun s c => seed_candidate now c s) st defaultCandidates
                  else st))) as (-> & _ & -> & _).
  destruct (insert_setting_candidates "results_published" "false" now
              (if (length (candidates st) =? 0)%nat
               then foldl (fun s c => seed_candidate now c s) st defaultCandidates
               else st)) as (-> & _ & -> & _).
  rewrite Hnil. simpl. unfold seed_candidate, Sql.insert_candidate. simpl.
  rewrite Hnil. simpl. split; reflexivity.
Qed.

Lemma initialize_keeps_candidates (now : Z) (st : store) :
  candidates st ≠ [] ->
  candidates (initialize now st) = candidates st /\
  candidate_seq (initialize now st) = candidate_seq st.
Proof.
  intros Hne. unfold initialize.
  destruct (candidates st) as [|c cs] eqn:E; [contradiction|]. simpl.
  destruct (insert_setting_candidates "winner_announced" "false" now
              (Sql.insert_setting_or_ignore "results_published" "false" now st))
    as (-> & _ & -> & _).
  destruct (insert_setting_candidates "results_published" "false" now st)
    as (-> & _ & -> & _).
  now rewrite E.
Qed.

End Startup.

(** X4: started again, the server changes nothing: start-up is
    idempotent, never overwrites a setting that exists, never touches
    the votes, and seeds the four default candidates only into an empty
    candidates table. *)
Theorem initialize_restart (now now' : Z) (st : store) :
  initialize now' (initialize now st) = initialize now st /\
  votes (initialize now st) = votes st /\
  (forall key s, settings st !! key = Some s ->
                 settings (initialize now st) !! key = Some s) /\
  (candidates st ≠ [] -> candidates (initialize now st) = candidates st) /\
  (candidates st = [] ->
   map (fun c => (c_name c, c_position c)) (candidates (initialize now st))
   = defaultCandidates).
Proof.
  split; [|split; [|split; [|split]]].
  - set (st1 := initialize now st).
    assert (Hne : candidates st1 ≠ []).
    { destruct (candidates st) as [|c cs] eqn:E.
      - destruct (initialize_seeds now st E) as [Hc _]. unfold st1. now rewrite Hc.
      - destruct (initialize_keeps_candidates now st) as [Hc _]; [now rewrite E|].
        unfold st1. now rewrite Hc, E. }
    assert (Hp : is_Some (settings st1 !! "results_published"))
      by apply initialize_publish_row.
    assert (Hw : is_Some (settings st1 !! "winner_announced"))
      by apply insert_setting_row.
    unfold initialize at 1.
    destruct (candidates st1) as [|c cs] eqn:E; [contradiction|]. simpl.
    rewrite (insert_setting_present "results_published" "false" now' st1 Hp).
    now rewrite (insert_setting_present "winner_announced" "false" now' st1 Hw).
  - unfold initialize.
    destruct (insert_setting_candidates "winner_announced" "false" now
                (Sql.insert_setting_or_ignore "results_published" "false" now
                   (if (length (candidates st) =? 0)%nat
                    then foldl (fun s c => seed_candidate now c s) st defaultCandidates
                    else st))) as (_ & -> & _).
    destruct (insert_setting_candidates "results_published" "false" now
                (if (length (candidates st) =? 0)%nat
                 then foldl (fun s c => seed_candidate now c s) st defaultCandidates
                 else st)) as (_ & -> & _).
    destruct (length (candidates st) =? 0)%nat; [|reflexivity].
    simpl. unfold seed_candidate, Sql.insert_candidate.
    repeat (match goal with
            | |- context [if ?b then _ else _] => destruct b
            end; simpl); reflexivity.
  - intros key s Hs. unfold initialize.
    assert (Hseed : settings (if (length (candidates st) =? 0)%nat
                              then foldl (fun s c => seed_candidate now c s) st
                                     defaultCandidates
                              else st) = settings st).
    { destruct (length (candidates st) =? 0)%nat; [|reflexivity].
      simpl. unfold seed_candidate, Sql.insert_candidate.
      repeat (match goal with
              | |- context [if ?b then _ else _] => destruct b
              end; simpl); reflexivity. }
    set (st0 := if (length (candidates st) =? 0)%nat then _ else st) in *.
    assert (Hkeep : forall k v n (s0 : store),
              settings s0 !! key = Some s ->
              settings (Sql.insert_setting_or_ignore k v n s0) !! key = Some s).
    { intros k v n s0 H0. unfold Sql.insert_setting_or_ignore.
      destruct (settings s0 !! k) eqn:E; [exact H0|]. simpl.
      rewrite lookup_insert_ne; [exact H0|]. intros ->. congruence. }
    apply Hkeep, Hkeep. now rewrite Hseed.
  - intros Hne. now apply initialize_keeps_candidates.
  - intros Hnil. destruct (initialize_seeds now st Hnil) as [-> _]. reflexivity.
Qed.

(** ** Listings *)

Section Listings.

Lemma insert_by_position_sorted (c : candidate) (l : list candidate) :
  StronglySorted position_le l -> StronglySorted position_le (Sql.insert_by_position c l).
Proof.
  induction l as [|d l IH]; intros Hs; simpl.
  - repeat constructor.
  - apply StronglySorted_inv in Hs as [Hl Hd].
    destruct (c_position c <=? c_position d) eqn:E.
    + apply Z.leb_le in E. constructor; [now constructor|].
      constructor; [exact E|].
      eapply Forall_impl; [exact Hd|]. unfold position_le. simpl. intros. lia.
    + apply Z.leb_gt in E. constructor; [now apply IH|].
      rewrite insert_by_position_perm. constructor; [unfold position_le; lia | exact Hd].
Qed.

Lemma order_by_position_sorted (l : list candidate) :
  StronglySorted position_le (Sql.order_by_position l).
Proof.
  induction l as [|c l IH]; [constructor|]. simpl. now apply insert_by_position_sorted.
Qed.

(** With distinct positions the order is strict. *)
Lemma sorted_strict (l : list candidate) :
  NoDup (map c_position l) -> StronglySorted position_le l ->
  StronglySorted position_lt l.
Proof.
  induction l as [|c l IH]; intros Hnd Hs; [constructor|].
  apply StronglySorted_inv in Hs as [Hl Hc].
  simpl in Hnd. apply NoDup_cons in Hnd as [Hnotin Hnd].
  constructor; [now apply IH|].
  apply Forall_forall. intros d Hd.
  pose proof (proj1 (Forall_forall _ _) Hc d Hd) as Hle.
  unfold position_le in Hle. unfold position_lt.
  destruct (Z.eq_dec (c_position c) (c_position d)) as [Heq | Hne]; [|lia].
  exfalso. apply Hnotin. rewrite Heq. apply list_elem_of_fmap_2, Hd.
Qed.

Lemma insert_by_time_perm (w : voter_row) (l : list voter_row) :
  Sql.insert_by_time w l ≡ₚ w :: l.
Proof.
  induction l as [|x l IH]; [reflexivity|].
  simpl. destruct (w_timestamp x <=? w_timestamp w); [reflexivity|].
  rewrite IH. apply Permutation_swap.
Qed.

Lemma insert_by_time_sorted (w : voter_row) (l : list voter_row) :
  StronglySorted not_earlier l -> StronglySorted not_earlier (Sql.insert_by_time w l).
Proof.
  induction l as [|x l IH]; intros Hs; simpl.
  - repeat constructor.
  - apply StronglySorted_inv in Hs as [Hl Hx].
    destruct (w_timestamp x <=? w_timestamp w) eqn:E.
    + apply Z.leb_le in E. constructor; [now constructor|].
      constructor; [exact E|].
      eapply Forall_impl; [exact Hx|]. unfold not_earlier. simpl. intros. lia.
    + apply Z.leb_gt in E. constructor; [now apply IH|].
      rewrite insert_by_time_perm. constructor; [unfold not_earlier; lia | exact Hx].
Qed.

Lemma sort_by_time (l : list voter_row) :
  foldr Sql.insert_by_time [] l ≡ₚ l /\
  StronglySorted not_earlier (foldr Sql.insert_by_time [] l).
Proof.
  induction l as [|w l [IHp IHs]]; [split; [reflexivity | constructor]|].
  simpl. split; [|now apply insert_by_time_sorted].
  rewrite insert_by_time_perm. now rewrite IHp.
Qed.

End Listings.

(** X5: the candidates listing never changes the store and, when its
    query goes through, returns every row of the table exactly once in
    ascending order of position, strictly ascending when the positions
    are distinct. *)
Theorem listCandidates_sorted (f : faults) (st : store) :
  fst (listCandidates f st) = st /\
  (f 0%nat = None ->
   exists rows,
     snd (listCandidates f st) = Resp 200 (BCandidates rows) /\
     rows ≡ₚ candidates st /\
     StronglySorted position_le rows /\
     (positions_distinct st -> StronglySorted position_lt rows)).
Proof.
  unfold listCandidates, callback, stmt. split; [now destruct (f 0%nat)|].
  intros ->. exists (Sql.select_candidates st). split; [reflexivity|].
  unfold Sql.select_candidates. split; [apply order_by_position_perm|].
  split; [apply order_by_position_sorted|].
  intros [Hnd _]. apply sorted_strict; [|apply order_by_position_sorted].
  now rewrite order_by_position_perm.
Qed.

(** ** Every vote is counted and listed once *)

Section Counting.

Lemma sum_of_perm (l k : list Z) : l ≡ₚ k -> sum_of l = sum_of k.
Proof.
  induction 1 as [| x l k _ IH | x y l | l k m _ IH1 _ IH2]; simpl in *; lia.
Qed.

Lemma sum_of_add {A} (g h : A -> Z) (l : list A) :
  sum_of (map (fun a => g a + h a) l) = sum_of (map g l) + sum_of (map h l).
Proof.
  induction l as [|a l IH]; [reflexivity|]. simpl in *. lia.
Qed.

Lemma filter_none {A} (P : A -> Prop) `{!forall x, Decision (P x)} (l : list A) :
  (forall x, x ∈ l -> ~ P x) -> filter P l = [].
Proof.
  induction l as [|a l IH]; intros Hno; [reflexivity|].
  rewrite filter_cons, decide_False by (apply Hno; left).
  apply IH. intros x Hx. apply Hno. now right.
Qed.

(** Among candidates with distinct ids exactly one carries a given id
    of the table. *)
Lemma unique_match (cs : list candidate) (c : candidate) :
  NoDup (map c_id cs) -> c ∈ cs ->
  filter (fun d => c_id d = c_id c) cs = [c].
Proof.
  induction cs as [|d cs IH]; intros Hnd Hc; [inversion Hc|].
  simpl in Hnd. apply NoDup_cons in Hnd as [Hnotin Hnd].
  rewrite filter_cons. apply elem_of_cons in Hc as [-> | Hc].
  - rewrite decide_True by reflexivity. f_equal.
    apply filter_none.
    intros e He Heq. apply Hnotin. rewrite <- Heq. apply list_elem_of_fmap_2, He.
  - rewrite decide_False; [now apply IH|].
    intros Heq. apply Hnotin. rewrite Heq. apply list_elem_of_fmap_2, Hc.
Qed.

Lemma indicator_sum (cs : list candidate) (k : Z) :
  NoDup (map c_id cs) -> (exists c, c ∈ cs /\ c_id c = k) ->
  sum_of (map (fun c => if decide (k = c_id c) then 1 else 0) cs) = 1.
Proof.
  induction cs as [|d cs IH]; intros Hnd (c & Hc & Hk); [inversion Hc|].
  simpl in Hnd. apply NoDup_cons in Hnd as [Hnotin Hnd]. simpl.
  destruct (decide (k = c_id d)) as [Heq | Hne].
  - assert (Hzero : sum_of (map (fun c => if decide (k = c_id c) then 1 else 0) cs) = 0).
    { clear IH Hc. induction cs as [|e cs IH]; [reflexivity|]. simpl.
      simpl in Hnotin, Hnd. apply NoDup_cons in Hnd as [_ Hnd].
      rewrite decide_False.
      - fold (sum_of (map (fun c => if decide (k = c_id c) then 1 else 0) cs)).
        rewrite IH; [lia | | exact Hnd].
        intros Hin. apply Hnotin. now right.
      - intros Heq'. apply Hnotin. rewrite <- Heq, Heq'. left. }
    fold (sum_of (map (fun c => if decide (k = c_id c) then 1 else 0) cs)). lia.
  - fold (sum_of (map (fun c => if decide (k = c_id c) then 1 else 0) cs)).
    rewrite IH; [lia | exact Hnd |].
    apply elem_of_cons in Hc as [-> | Hc]; [congruence|]. eauto.
Qed.

Lemma counts_sum (cs : list candidate) (vs : list vote) :
  NoDup (map c_id cs) ->
  Forall (fun v => exists c, c ∈ cs /\ c_id c = v_candidate_id v) vs ->
  sum_of (map (fun c => Z.of_nat (length (filter (fun v => v_candidate_id v = c_id c) vs))) cs)
  = Z.of_nat (length vs).
Proof.
  intros Hnd. induction 1 as [|v vs Hv Hvs IH].
  - simpl. induction cs as [|c cs IHc]; [reflexivity|].
    simpl in *. apply NoDup_cons in Hnd as [_ Hnd]. now rewrite IHc.
  - pose proof (indicator_sum cs (v_candidate_id v) Hnd Hv) as Hone.
    cbn [length]. rewrite Nat2Z.inj_succ.
    replace (Z.succ (Z.of_nat (length vs)))
      with (Z.of_nat (length vs)
            + sum_of (map (fun c => if decide (v_candidate_id v = c_id c) then 1 else 0) cs))
      by lia.
    rewrite <- IH, <- sum_of_add.
    f_equal. apply map_ext. intros c. rewrite filter_cons.
    destruct (decide (v_candidate_id v = c_id c)); simpl; lia.
Qed.

End Counting.

(** X6: when every vote names a candidate of the table and candidate
    ids are distinct, the tally counts each vote exactly once: the vote
    counts add up to [totalVotes], which is the number of votes on
    record. *)
Theorem tally_counts_every_vote (st : store) :
  votes_refer st -> NoDup (map c_id (candidates st)) ->
  exists results winner tie,
    tally no_faults st
    = (st, Resp 200 (BResults results (Z.of_nat (length (votes st))) winner tie)) /\
    sum_of (map votes_of results) = Z.of_nat (length (votes st)).
Proof.
  intros Href Hnd.
  assert (Hsum : sum_of (map t_vote_count (Sql.select_results st))
                 = Z.of_nat (length (votes st))).
  { unfold Sql.select_results, Sql.select_candidates. rewrite map_map. simpl.
    rewrite (sum_of_perm _ (map (fun c => Sql.count_votes (c_id c) st) (candidates st))).
    - apply (counts_sum _ _ Hnd Href).
    - apply Permutation_map, order_by_position_perm. }
  destruct (summarize_shape (Sql.select_results st))
    as (results & total & winners & Hbody & _ & Hrows).
  assert (Htotal : total = Z.of_nat (length (votes st))).
  { assert (Ht : total_of (summarize (Sql.select_results st)) = Some total)
      by now rewrite Hbody.
    unfold summarize in Ht. simpl in Ht. injection Ht as <-.
    rewrite foldl_sum. lia. }
  eexists results, _, _. split.
  - unfold tally, callback, stmt, no_faults. rewrite Hbody, Htotal. reflexivity.
  - rewrite <- Hsum, <- Hrows, map_map. reflexivity.
Qed.

Lemma tally_counts_every_vote_witness :
  let st := fst (castVote no_faults 2 (Some "Bob") (Some 1)
                   (fst (castVote no_faults 1 (Some "Alice") (Some 2)
                           (initialize 0 empty_store)))) in
  votes_refer st /\ NoDup (map c_id (candidates st)) /\
  exists results winner tie,
    tally no_faults st = (st, Resp 200 (BResults results 2 winner tie)) /\
    sum_of (map votes_of results) = 2.
Proof.
  intros st.
  assert (Href : votes_refer st).
  { constructor; [|constructor; [|constructor]].
    - eexists. split; [right; left | reflexivity].
    - eexists. split; [left | reflexivity]. }
  assert (Hnd : NoDup (map c_id (candidates st))).
  { change (NoDup [1; 2; 3; 4]). apply (NoDup_seqZ 1 4). }
  split; [exact Href|]. split; [exact Hnd|].
  exact (tally_counts_every_vote st Href Hnd).
Defined.

(** X7: the voters listing never changes the store; when its query goes
    through it lists the votes most recent first, each row pairing a
    vote with a candidate carrying the id it names; with distinct
    candidate ids and every vote naming a candidate, each vote is listed
    exactly once. *)
Theorem listVoters_complete (f : faults) (st : store) :
  fst (listVoters f st) = st /\
  (f 0%nat = None ->
   exists rows,
     snd (listVoters f st) = Resp 200 (BVoters rows) /\
     StronglySorted not_earlier rows /\
     (forall row, row ∈ rows <->
        exists v c, v ∈ votes st /\ c ∈ candidates st /\
                    c_id c = v_candidate_id v /\ row = voter_row_of v c) /\
     (votes_refer st -> NoDup (map c_id (candidates st)) ->
      length rows = length (votes st))).
Proof.
  unfold listVoters, callback, stmt. split; [now destruct (f 0%nat)|].
  intros ->. exists (Sql.select_voters st). split; [reflexivity|].
  unfold Sql.select_voters.
  set (joined := flat_map _ (votes st)).
  destruct (sort_by_time joined) as [Hperm Hsorted].
  split; [exact Hsorted|]. split.
  - intros row. rewrite Hperm. unfold joined. rewrite list_elem_of_In, in_flat_map.
    split.
    + intros (v & Hv & Hrow). apply in_map_iff in Hrow as (c & <- & Hc).
      apply list_elem_of_In, list_elem_of_filter in Hc as [Hid Hc].
      exists v, c. split; [now apply list_elem_of_In|]. now repeat split.
    + intros (v & c & Hv & Hc & Hid & ->). exists v.
      split; [now apply list_elem_of_In|].
      apply in_map_iff. exists c. split; [reflexivity|].
      apply list_elem_of_In, list_elem_of_filter. now split.
  - intros Href Hnd. rewrite Hperm. unfold joined.
    clear Hperm Hsorted joined. unfold votes_refer in Href.
    induction Href as [|v vs (c & Hc & Hid) _ IH]; [reflexivity|].
    simpl. rewrite length_app, IH. rewrite <- Hid, (unique_match _ c Hnd Hc).
    reflexivity.
Qed.

(** ** Votes and the tally *)

Section VoteEffects.

Lemma count_after_vote (name : string) (cid now id : Z) (st : store) :
  Sql.count_votes id (fst (Sql.insert_vote name cid now st))
  = Sql.count_votes id st + (if cid =? id then 1 else 0).
Proof.
  unfold Sql.count_votes, Sql.insert_vote. simpl.
  rewrite filter_app, length_app, filter_cons, filter_nil. simpl.
  destruct (decide (cid = id)) as [-> | Hne].
  - rewrite Z.eqb_refl. simpl. lia.
  - destruct (cid =? id) eqn:E; [lia|]. simpl. lia.
Qed.

Lemma results_after_vote (name : string) (cid now : Z) (st : store) :
  Sql.select_results (fst (Sql.insert_vote name cid now st))
  = map (one_more cid) (Sql.select_results st).
Proof.
  unfold Sql.select_results. rewrite map_map.
  change (Sql.select_candidates (fst (Sql.insert_vote name cid now st)))
    with (Sql.select_candidates st).
  apply map_ext. intros c. rewrite count_after_vote. unfold one_more. simpl.
  rewrite (Z.eqb_sym (c_id c) cid). destruct (cid =? c_id c); [reflexivity|].
  now rewrite Z.add_0_r.
Qed.

Lemma find_append {A} (p : A -> bool) (l k : list A) :
  find p (l ++ k) = match find p l with Some x => Some x | None => find p k end.
Proof.
  induction l as [|a l IH]; [reflexivity|]. simpl. now destruct (p a).
Qed.

End VoteEffects.

(** X8: a vote that is accepted raises the count of the candidate it
    names by exactly one in the results and leaves every other row as
    it was; that candidate is in the table. *)
Theorem castVote_counts_once (f : faults) (now : Z) (voterName : option string)
    (candidateId : option Z) (st : store) :
  succeeded (snd (castVote f now voterName candidateId st)) = true ->
  exists cid,
    candidateId = Some cid /\
    (exists c, c ∈ candidates st /\ c_id c = cid) /\
    Sql.select_results (fst (castVote f now voterName candidateId st))
    = map (one_more cid) (Sql.select_results st) /\
    length (votes (fst (castVote f now voterName candidateId st)))
    = S (length (votes st)).
Proof.
  intros Hok.
  destruct (castVote_store f now voterName candidateId st)
    as [[Hno _] | (vn & cid & c & _ & -> & _ & Hc & _ & ->)]; [congruence|].
  exists cid. split; [reflexivity|]. split.
  - exists c. now apply find_candidate_some.
  - split; [apply results_after_vote|].
    simpl. rewrite length_app. simpl. lia.
Qed.

Lemma castVote_counts_once_witness :
  let st := initialize 0 empty_store in
  succeeded (snd (castVote no_faults 1 (Some "Alice") (Some 2) st)) = true /\
  map t_vote_count (Sql.select_results st) = [0; 0; 0; 0] /\
  map t_vote_count
    (Sql.select_results (fst (castVote no_faults 1 (Some "Alice") (Some 2) st)))
  = [0; 1; 0; 0].
Proof.
  intros st. split; [reflexivity|]. split; [reflexivity|].
  destruct (castVote_counts_once no_faults 1 (Some "Alice") (Some 2) st eq_refl)
    as (cid & Hcid & _ & Hres & _).
  injection Hcid as <-. rewrite Hres. reflexivity.
Defined.

(** X9: once a vote is accepted, the check endpoint answers true for
    the trimmed name and for every query equal to it up to the case of
    ASCII letters, where it answered false for the trimmed name before;
    a second vote under the same name is refused. *)
Theorem hasVoted_after_vote (f : faults) (now now' : Z) (v q : string)
    (candidateId other : option Z) (st : store) :
  succeeded (snd (castVote f now (Some v) candidateId st)) = true ->
  Str.LOWER q = Str.LOWER (Str.trim v) ->
  snd (hasVoted no_faults (Str.trim v) st) = Resp 200 (BHasVoted false) /\
  snd (hasVoted no_faults q (fst (castVote f now (Some v) candidateId st)))
  = Resp 200 (BHasVoted true) /\
  succeeded (snd (castVote no_faults now' (Some v) other
                    (fst (castVote f now (Some v) candidateId st)))) = false.
Proof.
  intros Hok Hq.
  destruct (castVote_store f now (Some v) candidateId st)
    as [[Hno _] | (vn & cid & c & Hv & -> & Hfree & Hc & _ & Hst)]; [congruence|].
  injection Hv as <-. rewrite Hst.
  assert (Hfound : forall name, Str.LOWER name = Str.LOWER (Str.trim v) ->
            is_Some (Sql.find_voter name (fst (Sql.insert_vote (Str.trim v) cid now st)))).
  { intros name Hname. unfold Sql.find_voter, Sql.insert_vote. simpl.
    rewrite find_append.
    destruct (find _ (votes st)); [now eexists|]. simpl.
    rewrite bool_decide_true by now rewrite Hname. now eexists. }
  split; [|split].
  - unfold hasVoted, callback, stmt, no_faults. now rewrite Hfree.
  - unfold hasVoted, callback, stmt, no_faults.
    now rewrite bool_decide_true by now apply Hfound.
  - unfold castVote, callback, stmt, no_faults.
    destruct other as [o|]; [|reflexivity].
    destruct (_ || _); [reflexivity|].
    destruct (Hfound (Str.trim v) eq_refl) as [w ->]. reflexivity.
Qed.

Lemma hasVoted_after_vote_witness :
  let st := initialize 0 empty_store in
  succeeded (snd (castVote no_faults 1 (Some " Alice ") (Some 2) st)) = true /\
  snd (hasVoted no_faults "ALICE" (fst (castVote no_faults 1 (Some " Alice ") (Some 2) st)))
  = Resp 200 (BHasVoted true).
Proof.
  intros st. split; [reflexivity|].
  exact (proj1 (proj2 (hasVoted_after_vote no_faults 1 2 " Alice " "ALICE" (Some 2) None st
                         eq_refl eq_refl))).
Defined.

(** ** What a request leaves untouched *)

Section Untouched.


Lemma filter_empty_none {A} (P : A -> Prop) `{!forall x, Decision (P x)} (l : list A) :
  filter P l = [] -> forall x, x ∈ l -> ~ P x.
Proof.
  intros Hnil x Hx HP.
  assert (Hin : x ∈ filter P l) by (apply list_elem_of_filter; now split).
  rewrite Hnil in Hin. inversion Hin.
Qed.

Lemma no_change_zero (l : list candidate) (id : Z) :
  (Z.of_nat (length (filter (fun c => c_id c = id) l)) =? 0) = true ->
  forall c, c ∈ l -> c_id c ≠ id.
Proof.
  intros H c Hc. apply Z.eqb_eq in H.
  apply (filter_empty_none (fun c => c_id c = id) l); [|exact Hc].
  destruct (filter _ l); [reflexivity | simpl in H; lia].
Qed.



End Untouched.


(** X11: a candidate who has received a vote cannot be deleted,
    whichever statements fail: the request is not answered 200 and
    changes nothing.  Once the votes are reset the deletion goes
    through and the candidate is gone. *)
Theorem vote_blocks_removal (f g : faults) (now : Z) (voterName : option string)
    (cid : Z) (st : store) :
  succeeded (snd (castVote f now voterName (Some cid) st)) = true ->
  let st1 := fst (castVote f now voterName (Some cid) st) in
  succeeded (snd (removeCandidate g cid st1)) = false /\
  fst (removeCandidate g cid st1) = st1 /\
  snd (removeCandidate no_faults cid st1)
  = Resp 400 (BError "Cannot delete candidate with existing votes. Reset votes first.") /\
  let st2 := fst (resetVotes no_faults st1) in
  snd (removeCandidate no_faults cid st2)
  = Resp 200 (BMessage "Candidate deleted successfully") /\
  forall c, c ∈ candidates (fst (removeCandidate no_faults cid st2)) -> c_id c ≠ cid.
Proof.
  intros Hok st1.
  destruct (castVote_store f now voterName (Some cid) st)
    as [[Hno _] | (vn & cid' & c & _ & Hcid & _ & Hc & _ & Hst)]; [congruence|].
  injection Hcid as <-.
  assert (Hcount : (0 <? Sql.count_votes cid st1) = true).
  { unfold st1. rewrite Hst, count_after_vote, Z.eqb_refl.
    apply Z.ltb_lt. unfold Sql.count_votes. lia. }
  assert (Hcands : candidates st1 = candidates st) by (unfold st1; now rewrite Hst).
  split; [|split; [|split]].
  - unfold removeCandidate, callback, stmt. destruct (g 0%nat); [reflexivity|].
    now rewrite Hcount.
  - unfold removeCandidate, callback, stmt. destruct (g 0%nat); [reflexivity|].
    now rewrite Hcount.
  - unfold removeCandidate, callback, stmt, no_faults. now rewrite Hcount.
  - intros st2.
    assert (Hst2 : candidates st2 = candidates st /\ votes st2 = []).
    { unfold st2, resetVotes, callback, stmt, no_faults. simpl. now split. }
    destruct Hst2 as [Hc2 Hv2]. clearbody st2.
    assert (Hz : (0 <? Sql.count_votes cid st2) = false).
    { unfold Sql.count_votes. now rewrite Hv2. }
    assert (Hchanges : (snd (Sql.delete_candidate cid st2) =? 0) = false).
    { unfold Sql.delete_candidate. simpl. rewrite Hc2.
      apply find_candidate_some in Hc as [Hin Hid].
      apply Z.eqb_neq. intros Hzero.
      assert (Hin' : c ∈ filter (fun c => c_id c = cid) (candidates st))
        by (apply list_elem_of_filter; now split).
      destruct (filter _ (candidates st)); [inversion Hin' | simpl in Hzero; lia]. }
    assert (Hrun : removeCandidate no_faults cid st2
                   = (fst (Sql.delete_candidate cid st2),
                      Resp 200 (BMessage "Candidate deleted successfully"))).
    { unfold removeCandidate, callback, stmt, no_faults. rewrite Hz.
      change (Sql.delete_candidate cid st2)
        with (fst (Sql.delete_candidate cid st2), snd (Sql.delete_candidate cid st2)).
      cbv beta iota. rewrite Hchanges. now rewrite shift_after_delete. }
    rewrite Hrun. split; [reflexivity|].
    intros d Hd. simpl in Hd. now apply list_elem_of_filter in Hd as [Hd _].
Qed.

Lemma vote_blocks_removal_witness :
  let st := initialize 0 empty_store in
  succeeded (snd (castVote no_faults 1 (Some "Alice") (Some 2) st)) = true /\
  fst (removeCandidate no_faults 2 (fst (castVote no_faults 1 (Some "Alice") (Some 2) st)))
  = fst (castVote no_faults 1 (Some "Alice") (Some 2) st).
Proof.
  intros st. split; [reflexivity|].
  exact (proj1 (proj2 (vote_blocks_removal no_faults no_faults 1 (Some "Alice") 2 st
                         eq_refl))).
Defined.

(** ** Settings *)

(** X12: the server only ever writes the [results_published] row.
    Whatever the request and whichever statements fail, no settings key
    appears or disappears and every other row, [winner_announced]
    included, keeps its value and timestamp; and after a publish request
    that goes through, the settings endpoint reads [results_published]
    back as the boolean coercion of the [publish] field. *)
Theorem settings_only_published (r : request) (f : faults) (now : Z) (st : store) :
  (forall key, is_Some (settings (fst (handle r f now st)) !! key)
               <-> is_Some (settings st !! key)) /\
  (forall key, key ≠ "results_published" ->
               settings (fst (handle r f now st)) !! key = settings st !! key) /\
  (forall publish,
     r = PostPublish publish -> f 0%nat = None -> has_publish_row st ->
     exists values,
       snd (getSettings no_faults (fst (handle r f now st)))
       = Resp 200 (BSettings values) /\
       values !! "results_published" = Some (JBool (truthy publish)) /\
       settings (fst (handle r f now st)) !! "results_published"
       = Some (mkSetting (if truthy publish then "true" else "false") now)).
Proof.
  assert (Halter : forall (g : setting -> setting) (s0 : store) key,
            (is_Some (alter g "results_published" (settings s0) !! key)
             <-> is_Some (settings s0 !! key)) /\
            (key ≠ "results_published" ->
             alter g "results_published" (settings s0) !! key = settings s0 !! key)).
  { intros g s0 key. split.
    - destruct (decide ("results_published" = key)) as [<- | Hne].
      + rewrite lookup_alter_eq. destruct (settings s0 !! "results_published"); simpl;
          split; intros [? ?]; (discriminate || eauto).
      + now rewrite lookup_alter_ne.
    - intros Hne. now rewrite lookup_alter_ne. }
  assert (Hsame : forall s0 : store, settings s0 = settings st ->
            (forall key, is_Some (settings s0 !! key) <-> is_Some (settings st !! key)) /\
            (forall key, key ≠ "results_published" ->
                         settings s0 !! key = settings st !! key)).
  { intros s0 ->. now split. }
  split; [|split].
  - destruct r; unfold handle.
    + unfold listCandidates, callback, stmt. now destruct (f 0%nat).
    + now destruct (addCandidate_step f now name st) as [[_ ->] | (s & _ & _ & ->)].
    + now destruct (updateCandidateName_store f id name st) as [-> | (s & _ & ->)].
    + now destruct (removeCandidate_store f id st) as [-> | (_ & ->)].
    + now destruct (castVote_store f now voterName candidateId st)
        as [[_ ->] | (vn & cid & c & _ & _ & _ & _ & _ & ->)].
    + unfold tally, callback, stmt. now destruct (f 0%nat).
    + unfold listVoters, callback, stmt. now destruct (f 0%nat).
    + unfold hasVoted, callback, stmt. now destruct (f 0%nat).
    + unfold setResultsPublished, callback, stmt. destruct (f 0%nat); [easy|].
      intros key. apply (Halter _ st key).
    + unfold getSettings, callback, stmt. now destruct (f 0%nat).
    + unfold resetVotes, callback, stmt. destruct (f 0%nat); [easy|]. simpl.
      destruct (f 1%nat); [easy|]. intros key. simpl.
      apply (Halter _ (with_votes st [] (vote_seq st)) key).
  - destruct r; unfold handle.
    + unfold listCandidates, callback, stmt. now destruct (f 0%nat).
    + now destruct (addCandidate_step f now name st) as [[_ ->] | (s & _ & _ & ->)].
    + now destruct (updateCandidateName_store f id name st) as [-> | (s & _ & ->)].
    + now destruct (removeCandidate_store f id st) as [-> | (_ & ->)].
    + now destruct (castVote_store f now voterName candidateId st)
        as [[_ ->] | (vn & cid & c & _ & _ & _ & _ & _ & ->)].
    + unfold tally, callback, stmt. now destruct (f 0%nat).
    + unfold listVoters, callback, stmt. now destruct (f 0%nat).
    + unfold hasVoted, callback, stmt. now destruct (f 0%nat).
    + unfold setResultsPublished, callback, stmt. destruct (f 0%nat); [easy|].
      intros key. apply (Halter _ st key).
    + unfold getSettings, callback, stmt. now destruct (f 0%nat).
    + unfold resetVotes, callback, stmt. destruct (f 0%nat); [easy|]. simpl.
      destruct (f 1%nat); [easy|]. intros key. simpl.
      apply (Halter _ (with_votes st [] (vote_seq st)) key).
  - intros publish -> H0 Hrow. unfold handle, setResultsPublished, callback, stmt.
    rewrite H0. cbn [fst snd].
    pose proof (update_setting_at_value "results_published"
                  (if truthy publish then "true" else "false") now st Hrow) as Hv.
    eexists. split; [reflexivity|]. split; [|exact Hv].
    rewrite lookup_fmap, Hv. simpl. unfold setting_json. simpl.
    now destruct (truthy publish).
Qed.

(** ** After a reset *)

(** X13: resetting the votes lets everybody vote again: on the store a
    successful reset leaves, a vote under any non-empty name for a
    candidate of the table is accepted, also from a voter who had voted
    before the reset. *)
Theorem reset_allows_revote (now : Z) (v : string) (cid : Z) (st : store) :
  v ≠ EmptyString -> cid ≠ 0 ->
  (exists c, c ∈ candidates st /\ c_id c = cid) ->
  let st1 := fst (resetVotes no_faults st) in
  snd (resetVotes no_faults st)
  = Resp 200 (BReset "All votes reset successfully" (Z.of_nat (length (votes st)))) /\
  snd (castVote no_faults now (Some v) (Some cid) st1)
  = Resp 200 (BVoteCast (vote_seq st + 1) "Vote cast successfully") /\
  votes (fst (castVote no_faults now (Some v) (Some cid) st1))
  = [mkVote (vote_seq st + 1) (Str.trim v) cid now].
Proof.
  intros Hv Hcid (c & Hc & Hid) st1.
  split; [reflexivity|].
  assert (Hvotes : votes st1 = []) by reflexivity.
  assert (Hcands : candidates st1 = candidates st) by reflexivity.
  assert (Hseq : vote_seq st1 = vote_seq st) by reflexivity.
  clearbody st1.
  assert (Hfind : exists c', Sql.find_candidate cid st1 = Some c').
  { destruct (Sql.find_candidate cid st1) eqn:E; [eauto|].
    exfalso. apply (proj1 (find_candidate_none cid st1) E c); [|exact Hid].
    now rewrite Hcands. }
  destruct Hfind as [c' Hc'].
  unfold castVote, callback, stmt, no_faults.
  assert (Hmiss : not_string (Some v) || not_int (Some cid) = false).
  { simpl. destruct v; [contradiction|]. simpl. now apply Z.eqb_neq. }
  rewrite Hmiss. unfold Sql.find_voter. rewrite Hvotes. simpl. rewrite Hc'.
  unfold Sql.insert_vote. simpl. rewrite Hvotes, Hseq. now split.
Qed.

Lemma reset_allows_revote_witness :
  let st := fst (castVote no_faults 1 (Some "Alice") (Some 2) (initialize 0 empty_store)) in
  snd (castVote no_faults 2 (Some "Alice") (Some 3) st)
  = Resp 400 (BError "You have already voted!") /\
  "Alice" ≠ EmptyString /\ 3 ≠ 0 /\
  (exists c, c ∈ candidates st /\ c_id c = 3) /\
  snd (castVote no_faults 2 (Some "Alice") (Some 3) (fst (resetVotes no_faults st)))
  = Resp 200 (BVoteCast 2 "Vote cast successfully").
Proof.
  intros st.
  assert (H1 : "Alice" ≠ EmptyString) by discriminate.
  assert (H2 : 3 ≠ 0) by discriminate.
  assert (H3 : exists c, c ∈ candidates st /\ c_id c = 3).
  { eexists. split; [right; right; left | reflexivity]. }
  split; [reflexivity|]. split; [exact H1|]. split; [exact H2|]. split; [exact H3|].
  exact (proj1 (proj2 (reset_allows_revote 2 "Alice" 3 st H1 H2 H3))).
Defined.

(** ** Renaming a candidate *)

Section Rename.

Lemma insert_by_position_map (g : candidate -> candidate) (c : candidate)
    (l : list candidate) :
  (forall x, c_position (g x) = c_position x) ->
  Sql.insert_by_position (g c) (map g l) = map g (Sql.insert_by_position c l).
Proof.
  intros Hg. induction l as [|d l IH]; [reflexivity|].
  simpl. rewrite !Hg. destruct (c_position c <=? c_position d); [reflexivity|].
  simpl. now rewrite IH.
Qed.

Lemma order_by_position_map (g : candidate -> candidate) (l : list candidate) :
  (forall x, c_position (g x) = c_position x) ->
  Sql.order_by_position (map g l) = map g (Sql.order_by_position l).
Proof.
  intros Hg. induction l as [|c l IH]; [reflexivity|].
  simpl. fold (Sql.order_by_position (map g l)). fold (Sql.order_by_position l).
  rewrite IH. now apply insert_by_position_map.
Qed.

End Rename.

(** X14: a rename that reaches the table changes the name, trimmed, of
    the rows carrying the id and nothing else: ids, positions, votes
    and settings stay, and the results keep their order and counts with
    only that name replaced.  The answer is 200 exactly when some row
    carries the id and 404 otherwise. *)
Theorem updateCandidateName_renames (f : faults) (id : Z) (name : option string)
    (s : string) (st : store) :
  required_name name = Some s -> f 0%nat = None ->
  let st' := fst (updateCandidateName f id name st) in
  candidates st'
  = map (fun c => if c_id c =? id then renamed (Str.trim s) c else c) (candidates st) /\
  votes st' = votes st /\ settings st' = settings st /\
  Sql.select_results st' = map (renamed_row id (Str.trim s)) (Sql.select_results st) /\
  ((exists c, c ∈ candidates st /\ c_id c = id) ->
   snd (updateCandidateName f id name st)
   = Resp 200 (BMessage "Candidate updated successfully")) /\
  ((forall c, c ∈ candidates st -> c_id c ≠ id) ->
   snd (updateCandidateName f id name st) = Resp 404 (BError "Candidate not found")).
Proof.
  intros Hname H0 st'.
  assert (Hst : st' = fst (Sql.update_name id (Str.trim s) st)).
  { unfold st', updateCandidateName, callback, stmt. rewrite Hname, H0. simpl.
    now destruct (_ =? 0). }
  assert (Hresp : snd (updateCandidateName f id name st)
                  = if snd (Sql.update_name id (Str.trim s) st) =? 0
                    then Resp 404 (BError "Candidate not found")
                    else Resp 200 (BMessage "Candidate updated successfully")).
  { unfold updateCandidateName, callback, stmt. rewrite Hname, H0. simpl.
    now destruct (_ =? 0). }
  clearbody st'. subst st'.
  split; [reflexivity|]. split; [reflexivity|]. split; [reflexivity|].
  split; [|split].
  - unfold Sql.select_results, Sql.select_candidates, Sql.update_name. simpl.
    rewrite (order_by_position_map
               (fun c => if c_id c =? id then renamed (Str.trim s) c else c)).
    + rewrite !map_map. apply map_ext. intros c. unfold renamed_row. simpl.
      destruct (c_id c =? id) eqn:E; simpl; rewrite ?E; reflexivity.
    + intros c. now destruct (c_id c =? id).
  - intros (c & Hc & Hid). rewrite Hresp.
    destruct (snd (Sql.update_name id (Str.trim s) st) =? 0) eqn:E; [|reflexivity].
    exfalso. now apply (no_change_zero _ _ E c Hc).
  - intros Hno. rewrite Hresp. unfold Sql.update_name. simpl.
    now rewrite update_name_changes.
Qed.

Lemma updateCandidateName_renames_witness :
  let st := fst (castVote no_faults 1 (Some "Alice") (Some 2) (initialize 0 empty_store)) in
  required_name (Some " Bobby ") = Some " Bobby " /\
  map (fun row => (t_name row, t_vote_count row))
    (Sql.select_results (fst (updateCandidateName no_faults 2 (Some " Bobby ") st)))
  = [("Alice Johnson", 0); ("Bobby", 1); ("Carol Wilson", 0); ("David Brown", 0)].
Proof.
  intros st. split; [reflexivity|].
  destruct (updateCandidateName_renames no_faults 2 (Some " Bobby ") " Bobby " st
              eq_refl eq_refl) as (_ & _ & _ & Hres & _).
  rewrite Hres. reflexivity.
Defined.

(** * The voting page *)

(** ** Requests that get through *)

Lemma get_keeps_store (r : request) (f : faults) (now : Z) (st : store) :
  is_get r = true -> fst (handle r f now st) = st.
Proof.
  destruct r; try discriminate; intros _; unfold handle.
  - unfold listCandidates, callback, stmt. now destruct (f 0%nat).
  - unfold tally, callback, stmt. now destruct (f 0%nat).
  - unfold listVoters, callback, stmt. now destruct (f 0%nat).
  - unfold hasVoted, callback, stmt. now destruct (f 0%nat).
  - unfold getSettings, callback, stmt. now destruct (f 0%nat).
Qed.

Lemma apiCall_route (r : request) (w : Client.wire) (st : store) :
  Client.net_down w = None ->
  Client.apiCall (Route r) w st
  = (fst (handle r (Client.net_faults w) (Client.net_now w) st),
     let resp := snd (handle r (Client.net_faults w) (Client.net_now w) st) in
     if Client.ok (status resp) then inr (Api (payload resp))
     else inl (Client.error_of (Api (payload resp)))).
Proof.
  intros Hup. unfold Client.apiCall, serve. rewrite Hup.
  now destruct (handle r _ _ st).
Qed.

Lemma apiCall_get_store (r : request) (w : Client.wire) (st : store) :
  is_get r = true -> fst (Client.apiCall (Route r) w st) = st.
Proof.
  intros Hget. unfold Client.apiCall, serve.
  destruct (Client.net_down w); [reflexivity|].
  pose proof (get_keeps_store r (Client.net_faults w) (Client.net_now w) st Hget) as H.
  destruct (handle r _ _ st) as [st' resp]. exact H.
Qed.

Lemma updateAdminDashboard_store (net : nat -> Client.wire) (k : nat) (st : store) :
  Client.updateAdminDashboard net k st = st.
Proof.
  unfold Client.updateAdminDashboard. now rewrite !apiCall_get_store.
Qed.

(** ** The candidates of the page *)

Lemma key_of_inj (p q : Z) : Client.key_of p = Client.key_of q -> p = q.
Proof.
  unfold Client.key_of. intros H. apply (inj (String.app "candidate")) in H.
  now apply (inj pretty) in H.
Qed.

Lemma remember_lookup (rows : list candidate) (m : gmap string Client.entry)
    (key : string) (e : Client.entry) :
  NoDup (map c_position rows) ->
  foldl Client.remember m rows !! key = Some e <->
  (exists cand, cand ∈ rows /\ key = Client.key_of (c_position cand) /\
                e = Client.entry_of cand) \/
  (m !! key = Some e /\
   forall cand, cand ∈ rows -> key ≠ Client.key_of (c_position cand)).
Proof.
  revert m. induction rows as [|c rows IH]; intros m Hnd; simpl.
  - split.
    + intros H. right. split; [exact H|]. intros cand Hc. inversion Hc.
    + intros [(cand & Hc & _) | [H _]]; [inversion Hc | exact H].
  - apply NoDup_cons in Hnd as [Hfresh Hnd]. rewrite (IH _ Hnd). unfold Client.remember.
    split.
    + intros [(cand & Hc & Hk & He) | [Hm Hno]].
      * left. exists cand. split; [now right | now split].
      * destruct (decide (key = Client.key_of (c_position c))) as [-> | Hne].
        -- rewrite lookup_insert_eq in Hm. injection Hm as <-.
           left. exists c. split; [left | now split].
        -- rewrite lookup_insert_ne in Hm by congruence.
           right. split; [exact Hm|]. intros cand Hc.
           apply elem_of_cons in Hc as [-> | Hc]; [exact Hne | now apply Hno].
    + intros [(cand & Hc & Hk & He) | [Hm Hno]].
      * apply elem_of_cons in Hc as [-> | Hc].
        -- right. subst key e. split; [now rewrite lookup_insert_eq|].
           intros d Hd Heq. apply key_of_inj in Heq. apply Hfresh.
           rewrite Heq. apply list_elem_of_In, in_map, list_elem_of_In, Hd.
        -- left. exists cand. now split.
      * right. split.
        -- rewrite lookup_insert_ne; [exact Hm|]. intros Heq. apply (Hno c); [left | now symmetry].
        -- intros cand Hc. apply Hno. now right.
Qed.

Lemma remember_size (rows : list candidate) (m : gmap string Client.entry) :
  NoDup (map c_position rows) ->
  (forall cand, cand ∈ rows -> m !! Client.key_of (c_position cand) = None) ->
  size (foldl Client.remember m rows) = (size m + length rows)%nat.
Proof.
  revert m. induction rows as [|c rows IH]; intros m Hnd Hnone; simpl; [lia|].
  apply NoDup_cons in Hnd as [Hfresh Hnd]. rewrite (IH _ Hnd).
  - unfold Client.remember. rewrite map_size_insert_None; [lia|]. apply Hnone. left.
  - intros cand Hc. unfold Client.remember. rewrite lookup_insert_ne.
    + apply Hnone. now right.
    + intros Heq. apply key_of_inj in Heq. apply Hfresh. rewrite Heq.
      apply list_elem_of_In, in_map, list_elem_of_In, Hc.
Qed.

(** X15: when positions are distinct and the request goes through,
    [loadCandidates] leaves the page with exactly one entry per
    candidate of the table, found under the key ["candidate"] followed
    by its position and carrying its id and name; the table is not
    changed and nothing is put before the user.  When the request does
    not reach the server, or its query fails, the page keeps the
    entries it had and raises the alert. *)
Theorem loadCandidates_keys (w : Client.wire) (c : Client.state) (st : store) :
  positions_distinct st ->
  (Client.net_down w = None -> Client.net_faults w 0%nat = None ->
   exists m,
     Client.loadCandidates w c st = (Client.with_candidates c m, st, []) /\
     (forall key e,
        m !! key = Some e <->
        exists cand, cand ∈ candidates st /\ key = Client.key_of (c_position cand) /\
                     e = Client.entry_of cand) /\
     size m = length (candidates st)) /\
  ((is_Some (Client.net_down w) \/ is_Some (Client.net_faults w 0%nat)) ->
   Client.loadCandidates w c st
   = (c, st, [Client.Alert "Failed to load candidates. Please refresh the page."])).
Proof.
  intros [Hnd _]. split.
  - intros Hup Hf. unfold Client.loadCandidates. rewrite (apiCall_route _ _ _ Hup).
    unfold handle, listCandidates, callback, stmt. rewrite Hf. simpl.
    eexists. split; [reflexivity|].
    assert (Hperm : Sql.select_candidates st ≡ₚ candidates st)
      by apply order_by_position_perm.
    assert (Hnd' : NoDup (map c_position (Sql.select_candidates st))).
    { assert (Hp : map c_position (Sql.select_candidates st)
                   ≡ₚ map c_position (candidates st)) by now apply Permutation_map.
      now rewrite Hp. }
    split.
    + intros key e. rewrite (remember_lookup _ _ _ _ Hnd'). split.
      * intros [(cand & Hc & Hk & He) | [Hm _]]; [|now rewrite lookup_empty in Hm].
        exists cand. split; [now rewrite <- Hperm | now split].
      * intros (cand & Hc & Hk & He). left. exists cand.
        split; [now rewrite Hperm | now split].
    + rewrite (remember_size _ _ Hnd'); [|intros; apply lookup_empty].
      rewrite map_size_empty. simpl. now rewrite Hperm.
  - intros Hfail. unfold Client.loadCandidates, Client.apiCall.
    destruct (Client.net_down w) as [m|] eqn:Hd; [reflexivity|].
    destruct Hfail as [[? ?] | [msg Hmsg]]; [discriminate|].
    unfold serve, handle, listCandidates, callback, stmt. rewrite Hmsg. reflexivity.
Qed.

Lemma loadCandidates_keys_witness :
  let st := fst (handle (DeleteCandidate 2) no_faults 1 (initialize 0 empty_store)) in
  positions_distinct st /\
  exists m,
    Client.loadCandidates (Client.clear 2) Client.initial st
    = (Client.with_candidates Client.initial m, st, []) /\
    m !! "candidate3" = Some (Client.mkEntry 3 "Carol Wilson" 3) /\
    m !! "candidate2" = None /\
    size m = 3%nat.
Proof.
  intros st.
  assert (H : positions_distinct st).
  { split; [change (NoDup [1; 3; 4]) | vm_compute; repeat constructor; discriminate].
    repeat constructor; intros Hin;
      repeat (apply elem_of_cons in Hin as [Hin | Hin]; [discriminate|]); inversion Hin. }
  split; [exact H|].
  destruct (proj1 (loadCandidates_keys (Client.clear 2) Client.initial st H)
              eq_refl eq_refl) as (m & Hm & Hkeys & Hsize).
  exists m. split; [exact Hm|]. split; [|split; [|exact Hsize]].
  - apply Hkeys. eexists. split; [right; left | split; reflexivity].
  - destruct (m !! "candidate2") as [e|] eqn:E; [|reflexivity].
    apply Hkeys in E as (cand & Hc & Hk & _). exfalso.
    repeat (apply elem_of_cons in Hc as [-> | Hc]; [discriminate Hk|]). inversion Hc.
Defined.

(** ** The announcement of a tie *)

Lemma filter_mapped {A B} (g : A -> B) (p : B -> bool) (l : list A) :
  List.filter p (map g l) = map g (List.filter (fun x => p (g x)) l).
Proof.
  induction l as [|x l IH]; [reflexivity|]. simpl.
  destruct (p (g x)); simpl; now rewrite IH.
Qed.

Lemma tally_body (f : faults) (st : store) :
  f 0%nat = None ->
  tally f st = (st, Resp 200 (summarize (Sql.select_results st))).
Proof. intros Hf. unfold tally, callback, stmt. now rewrite Hf. Qed.

Lemma select_results_sorted (st : store) (first : tally_row) (rest : list tally_row) :
  Sql.select_results st = first :: rest ->
  Forall (fun r => t_position first <= t_position r) rest.
Proof.
  unfold Sql.select_results, Sql.select_candidates.
  pose proof (order_by_position_sorted (candidates st)) as Hs.
  destruct (Sql.order_by_position (candidates st)) as [|c cs]; [discriminate|].
  simpl. intros H. injection H as <- <-.
  apply StronglySorted_inv in Hs as [_ Hc]. simpl.
  apply Forall_forall. intros r Hr.
  apply list_elem_of_In, in_map_iff in Hr as (d & <- & Hd). simpl.
  exact (proj1 (Forall_forall _ _) Hc d (proj2 (list_elem_of_In _ _) Hd)).
Qed.

(** X16: when the tally reports a tie, the dashboard and the public
    results both announce the vote count of the first result, the
    candidate at the lowest position, as the count the tied candidates
    have each.  At least two candidates share the highest count, which
    is positive; the announced count is never above it, and is below it
    whenever the first candidate is not one of those who lead. *)
Theorem tie_announcement_count (st : store) (w : Client.wire) (c : Client.state)
    (results : list result) (total : Z) (winner : option result) :
  snd (tally no_faults st) = Resp 200 (BResults results total winner true) ->
  exists first rest M,
    Sql.select_results st = first :: rest /\
    Forall (fun r => t_position first <= t_position r) rest /\
    Client.announce (BResults results total winner true)
    = Some (Client.Tie (t_vote_count first)) /\
    (truthy (Client.resultsPublished c) = true -> Client.net_down w = None ->
     Client.net_faults w 0%nat = None ->
     Client.displayPublicResults w c st
     = (st, Client.Final (Some (Client.Tie (t_vote_count first))) results total)) /\
    Math_max (map t_vote_count (Sql.select_results st)) = Int M /\
    0 < M /\
    (1 < length (List.filter (fun r => (t_vote_count r =? M)%Z) (Sql.select_results st)))%nat /\
    t_vote_count first <= M.
Proof.
  rewrite (tally_body no_faults st eq_refl). cbn [snd]. intros H.
  assert (Hbody : summarize (Sql.select_results st) = BResults results total winner true)
    by congruence.
  clear H.
  assert (Hshape := Hbody). unfold summarize in Hshape. cbv zeta in Hshape.
  injection Hshape as Hres Htotal _ Htie.
  rewrite map_map in Htie. simpl in Htie.
  apply andb_true_iff in Htie as [Hmany Hpos].
  destruct (Math_max (map t_vote_count (Sql.select_results st))) as [|M] eqn:HM;
    [discriminate|].
  simpl in Hpos. apply Z.ltb_lt in Hpos.
  destruct (Sql.select_results st) as [|first rest] eqn:Hrows; [discriminate|].
  exists first, rest, M.
  split; [reflexivity|].
  split; [exact (select_results_sorted st first rest Hrows)|].
  assert (Hfirst : Client.first_count results = Some (t_vote_count first)).
  { rewrite <- Hres. reflexivity. }
  split; [simpl; now rewrite Hfirst|].
  split.
  - intros Hpub Hup Hf. unfold Client.displayPublicResults. rewrite Hpub. simpl.
    rewrite (apiCall_route _ _ _ Hup). unfold handle.
    rewrite (tally_body _ st Hf), Hrows, Hbody. cbn [fst snd status payload].
    change (Client.ok 200) with true. cbv iota.
    assert (Hnz : (total =? 0) = false).
    { apply Z.eqb_neq. rewrite <- Htotal, foldl_sum.
      destruct (Math_max_spec _ _ HM) as [Hin _].
      pose proof (results_rows st) as Hnn. rewrite Hrows in Hnn.
      assert (Hnn' : Forall (fun y => 0 <= y) (map t_vote_count (first :: rest))).
      { apply Forall_forall. intros y Hy.
        apply list_elem_of_In, in_map_iff in Hy as (r & <- & Hr).
        exact (proj1 (Forall_forall _ _) Hnn r (proj2 (list_elem_of_In _ _) Hr)). }
      pose proof (sum_of_bound _ _ Hnn' Hin). lia. }
    rewrite Hnz, Hfirst. reflexivity.
  - split; [reflexivity|]. split; [exact Hpos|]. split.
    + apply Nat.ltb_lt in Hmany. rewrite filter_mapped, length_map in Hmany.
      erewrite filter_ext in Hmany; [exact Hmany|].
      intros r. simpl. destruct (0 <? M) eqn:E; [now rewrite andb_true_r|].
      apply Z.ltb_ge in E. lia.
    + destruct (Math_max_spec _ _ HM) as [_ Hle]. apply Hle. left.
Qed.

Lemma tie_announcement_count_witness :
  let st := fst (castVotes
                   [mkBallot no_faults 1 (Some "Ann") (Some 1);
                    mkBallot no_faults 2 (Some "Ben") (Some 2);
                    mkBallot no_faults 3 (Some "Cem") (Some 2);
                    mkBallot no_faults 4 (Some "Dot") (Some 3);
                    mkBallot no_faults 5 (Some "Eli") (Some 3)]
                   (initialize 0 empty_store)) in
  exists results total first rest,
    snd (tally no_faults st) = Resp 200 (BResults results total None true) /\
    Sql.select_results st = first :: rest /\
    Client.announce (BResults results total None true) = Some (Client.Tie 1) /\
    Math_max (map t_vote_count (Sql.select_results st)) = Int 2.
Proof.
  intros st. eexists _, _.
  destruct (tie_announcement_count st (Client.clear 6) Client.initial _ _ None eq_refl)
    as (first & rest & M & Hrows & _ & Hann & _ & HM & _).
  exists first, rest. split; [reflexivity|]. split; [exact Hrows|].
  split; [|reflexivity].
  rewrite Hann. vm_compute in Hrows. injection Hrows as <- _. reflexivity.
Defined.

(** ** A voter's session *)

Lemma through_clear (now : Z) : Client.through (Client.clear now).
Proof. now split. Qed.







(** ** The administrator's flag *)

Lemma grown_refl (st : store) : grown st st.
Proof. now repeat split. Qed.

Lemma grown_trans (a b c : store) : grown a b -> grown b c -> grown a c.
Proof.
  intros (H1 & H2 & H3) (K1 & K2 & K3). repeat split; try congruence.
  now transitivity (votes b).
Qed.

Lemma castVote_grown (f : faults) (now : Z) (voterName : option string)
    (candidateId : option Z) (st : store) :
  grown st (fst (castVote f now voterName candidateId st)).
Proof.
  destruct (castVote_store f now voterName candidateId st)
    as [[_ ->] | (vn & cid & c & _ & _ & _ & _ & _ & ->)]; [apply grown_refl|].
  unfold Sql.insert_vote, grown. simpl. repeat split. now apply prefix_app_r.
Qed.

Lemma apiCall_get_grown (r : request) (w : Client.wire) (st : store) :
  is_get r = true -> grown st (fst (Client.apiCall (Route r) w st)).
Proof. intros H. rewrite (apiCall_get_store r w st H). apply grown_refl. Qed.

Lemma adminLogin_answer (usernameInput passwordInput : string) (net : nat -> Client.wire)
    (c : Client.state) (st : store) :
  Client.adminLogin usernameInput passwordInput net c st
  = if Client.presents_credentials (Client.AdminLogin usernameInput passwordInput net)
       && bool_decide (Client.net_down (net 0%nat) = None)
    then (Client.with_isAdmin c true, st, [Client.Show "admin-dashboard-section"])
    else (c, st, [Client.Alert "Invalid admin credentials."]).
Proof.
  unfold Client.adminLogin, Client.apiCall, Client.presents_credentials.
  destruct (Client.net_down (net 0%nat)) as [m|]; [now rewrite andb_false_r|].
  replace (bool_decide (@None string = None)) with true
    by (symmetry; now apply bool_decide_eq_true_2).
  rewrite andb_true_r.
  unfold serve, adminLogin, is_string.
  destruct (bool_decide (Str.trim usernameInput = "admin"));
    destruct (bool_decide (Str.trim passwordInput = "admin123")); simpl;
    now rewrite ?updateAdminDashboard_store.
Qed.

Lemma step_without_credentials (a : Client.action) (c : Client.state) (st : store) :
  Client.isAdmin c = false ->
  Client.presents_credentials a = false ->
  Client.isAdmin (fst (Client.step a (c, st))) = false /\
  grown st (snd (Client.step a (c, st))).
Proof.
  intros Hc Ha. destruct a; unfold Client.step.
  - unfold Client.loadCandidates.
    pose proof (apiCall_get_grown GetCandidates w st eq_refl) as Hg.
    destruct (Client.apiCall (Route GetCandidates) w st) as [st' [m | [[]| |]]];
      simpl in *; now split.
  - unfold Client.loadSettings.
    pose proof (apiCall_get_grown GetSettings w st eq_refl) as Hg.
    destruct (Client.apiCall (Route GetSettings) w st) as [st' [m | [[]| |]]];
      simpl in *; now split.
  - unfold Client.userLogin. destruct (Str.is_empty (Str.trim input));
      [split; [exact Hc | apply grown_refl]|].
    assert (Hg : grown st (fst (Client.apiCall (Client.check_endpoint (Str.trim input)) w st))).
    { unfold Client.check_endpoint. destruct (Client.dot_segment (Str.trim input)).
      - unfold Client.apiCall, serve. destruct (Client.net_down w); apply grown_refl.
      - now apply apiCall_get_grown. }
    destruct (Client.apiCall _ w st) as [st' [m | [[| | | | | | |[]| | |]| |]]];
      simpl in *; now split.
  - unfold Client.vote. destruct (not_string (Client.currentUser c));
      [split; [exact Hc | apply grown_refl]|].
    destruct (Client.get (Client.candidates c) candidateKey) as [e| |];
      try (split; [exact Hc | apply grown_refl]).
    + assert (Hg : grown st (fst (Client.apiCall
                                    (Route (PostVote (Client.currentUser c)
                                                     (Some (Client.e_id e)))) w st))).
      { unfold Client.apiCall, serve. destruct (Client.net_down w); [apply grown_refl|].
        unfold handle.
        pose proof (castVote_grown (Client.net_faults w) (Client.net_now w)
                      (Client.currentUser c) (Some (Client.e_id e)) st) as H.
        now destruct (castVote _ _ _ _ st). }
      destruct (Client.apiCall _ w st) as [st' [m | j]]; simpl in *; now split.
    + assert (Hg : grown st (fst (Client.apiCall
                                    (Route (PostVote (Client.currentUser c) None)) w st))).
      { unfold Client.apiCall, serve. destruct (Client.net_down w); [apply grown_refl|].
        unfold handle.
        pose proof (castVote_grown (Client.net_faults w) (Client.net_now w)
                      (Client.currentUser c) None st) as H.
        now destruct (castVote _ _ _ _ st). }
      destruct (Client.apiCall _ w st) as [st' [m | j]]; simpl in *; now split.
  - split; [exact Hc|]. unfold Client.displayPublicResults.
    destruct (negb (truthy (Client.resultsPublished c))); [apply grown_refl|].
    pose proof (apiCall_get_grown GetResults w st eq_refl) as Hg.
    destruct (Client.apiCall (Route GetResults) w st)
      as [st' [m | [[| | | | |results total winner tie| | | | |]| |]]];
      simpl in *; try exact Hg.
    destruct (total =? 0); [exact Hg|]. destruct tie; [|exact Hg].
    now destruct (Client.first_count results).
  - rewrite adminLogin_answer. rewrite Ha. simpl. split; [exact Hc | apply grown_refl].
  - unfold Client.addCandidate. rewrite Hc. simpl. split; [exact Hc | apply grown_refl].
  - unfold Client.publishResults. rewrite Hc. simpl. split; [exact Hc | apply grown_refl].
  - unfold Client.resetVotes. rewrite Hc. simpl. split; [exact Hc | apply grown_refl].
  - simpl. split; [reflexivity | apply grown_refl].
Qed.

(** X18: the administrator's functions act only after a login with the
    administrator's name and password.  From a page that is not in
    administrator mode, whatever a visitor does (logins of voters,
    votes, looking at the results, attempts to add a candidate, to
    publish or to reset, logins with other names or passwords) and
    whatever happens to the requests, the page stays out of
    administrator mode, and the server keeps its candidates and its
    settings and every vote it had: votes are only added. *)
Theorem admin_needs_credentials (l : list Client.action) (c : Client.state) (st : store) :
  Client.isAdmin c = false ->
  Forall (fun a => Client.presents_credentials a = false) l ->
  Client.isAdmin (fst (Client.run l (c, st))) = false /\
  candidates (snd (Client.run l (c, st))) = candidates st /\
  settings (snd (Client.run l (c, st))) = settings st /\
  votes st `prefix_of` votes (snd (Client.run l (c, st))).
Proof.
  intros Hc Hl.
  enough (H : Client.isAdmin (fst (Client.run l (c, st))) = false /\
              grown st (snd (Client.run l (c, st)))).
  { destruct H as (H1 & H2 & H3 & H4). auto. }
  revert c st Hc. induction Hl as [|a l Ha Hl IH]; intros c st Hc.
  - split; [exact Hc | apply grown_refl].
  - change (Client.run (a :: l) (c, st)) with (Client.run l (Client.step a (c, st))).
    destruct (step_without_credentials a c st Hc Ha) as [Hc' Hg].
    destruct (Client.step a (c, st)) as [c' st']. simpl in Hc', Hg.
    destruct (IH c' st' Hc') as [Hc'' Hg']. split; [exact Hc''|].
    exact (grown_trans _ _ _ Hg Hg').
Qed.

Lemma admin_needs_credentials_witness :
  let st := initialize 0 empty_store in
  let net := fun _ : nat => Client.clear 1 in
  let l := [Client.LoadCandidates (Client.clear 1);
            Client.AdminLogin "Admin" "admin123" net;
            Client.ResetVotes true net;
            Client.UserLogin "Ann" (Client.clear 1);
            Client.Vote "candidate1" (Client.clear 1);
            Client.PublishResults true net] in
  Client.isAdmin (fst (Client.run l (Client.initial, st))) = false /\
  candidates (snd (Client.run l (Client.initial, st))) = candidates st /\
  settings (snd (Client.run l (Client.initial, st))) = settings st /\
  map v_voter_name (votes (snd (Client.run l (Client.initial, st)))) = ["Ann"].
Proof.
  intros st net l.
  assert (Hl : Forall (fun a => Client.presents_credentials a = false) l)
    by (repeat constructor).
  destruct (admin_needs_credentials l Client.initial st eq_refl Hl) as (H1 & H2 & H3 & _).
  split; [exact H1|]. split; [exact H2|]. split; [exact H3|]. reflexivity.
Defined.

(** X19: the login of the administrator never changes a table.  It
    puts the page in administrator mode exactly when the request
    reaches the server and the two fields hold, white space around
    them aside, the name [admin] and the password [admin123], letter
    for letter; every other attempt raises the alert and leaves the
    page as it was. *)
Theorem adminLogin_outcome (usernameInput passwordInput : string)
    (net : nat -> Client.wire) (c : Client.state) (st : store) :
  (Str.trim usernameInput = "admin" /\ Str.trim passwordInput = "admin123" /\
   Client.net_down (net 0%nat) = None /\
   Client.adminLogin usernameInput passwordInput net c st
   = (Client.with_isAdmin c true, st, [Client.Show "admin-dashboard-section"])) \/
  ((Str.trim usernameInput ≠ "admin" \/ Str.trim passwordInput ≠ "admin123" \/
    is_Some (Client.net_down (net 0%nat))) /\
   Client.adminLogin usernameInput passwordInput net c st
   = (c, st, [Client.Alert "Invalid admin credentials."])).
Proof.
  rewrite adminLogin_answer. unfold Client.presents_credentials.
  destruct (decide (Str.trim usernameInput = "admin")) as [Hu | Hu];
    [|right; split; [now left|]; now rewrite (bool_decide_eq_false_2 _ Hu)].
  destruct (decide (Str.trim passwordInput = "admin123")) as [Hp | Hp];
    [|right; split; [now right; left|];
      now rewrite (bool_decide_eq_false_2 _ Hp), andb_false_r].
  destruct (Client.net_down (net 0%nat)) as [m|] eqn:Hd.
  - right. split; [right; right; eauto|]. now rewrite andb_false_r.
  - left. rewrite (bool_decide_eq_true_2 _ Hu), (bool_decide_eq_true_2 _ Hp). auto.
Qed.

(** ** Publishing and resetting *)

Lemma select_results_total (st : store) :
  votes_refer st -> NoDup (map c_id (candidates st)) ->
  total_of (summarize (Sql.select_results st)) = Some (Z.of_nat (length (votes st))).
Proof.
  intros Href Hnd. unfold summarize. simpl. rewrite foldl_sum. f_equal.
  unfold Sql.select_results, Sql.select_candidates. rewrite map_map. simpl.
  rewrite (sum_of_perm _ (map (fun c => Sql.count_votes (c_id c) st) (candidates st))).
  - apply (counts_sum _ _ Hnd Href).
  - apply Permutation_map, order_by_position_perm.
Qed.

Lemma summarize_results (rows : list tally_row) :
  exists results total winner tie,
    summarize rows = BResults results total winner tie /\
    total_of (summarize rows) = Some total /\
    map r_row results = rows.
Proof.
  destruct (summarize_shape rows) as (results & total & winners & Hbody & _ & Hrows).
  eexists results, total, _, _. split; [exact Hbody|]. split; [now rewrite Hbody | exact Hrows].
Qed.

Lemma display_final (w : Client.wire) (c : Client.state) (st : store) :
  Client.through w -> votes_refer st -> NoDup (map c_id (candidates st)) ->
  votes st ≠ [] ->
  truthy (Client.resultsPublished c) = true ->
  exists a results,
    Client.displayPublicResults w c st
    = (st, Client.Final a results (Z.of_nat (length (votes st)))) /\
    map r_row results = Sql.select_results st.
Proof.
  intros [Hup Hf] Href Hnd Hvotes Hflag.
  unfold Client.displayPublicResults. rewrite Hflag. simpl negb. cbv iota.
  rewrite (apiCall_route _ _ _ Hup). unfold handle. rewrite (tally_body _ st (Hf 0%nat)).
  cbn [fst snd status payload]. change (Client.ok 200) with true. cbv iota.
  destruct (summarize_results (Sql.select_results st))
    as (results & total & winner & tie & Hbody & Htotal & Hrows).
  rewrite (select_results_total st Href Hnd) in Htotal. injection Htotal as <-.
  rewrite Hbody.
  assert (Hnz : (Z.of_nat (length (votes st)) =? 0) = false).
  { apply Z.eqb_neq. destruct (votes st); [contradiction | simpl; lia]. }
  rewrite Hnz.
  destruct tie; [|eauto].
  destruct results as [|r results]; [|simpl; eauto].
  exfalso. simpl in Hrows.
  pose proof (select_results_total st Href Hnd) as Ht. rewrite <- Hrows in Ht.
  simpl in Ht. injection Ht as Ht. apply Z.eqb_neq in Hnz. lia.
Qed.

Lemma loadSettings_row (w : Client.wire) (c : Client.state) (st : store) (s : setting) :
  Client.through w ->
  settings st !! "results_published" = Some s ->
  Client.loadSettings w c st
  = (Client.with_resultsPublished c
       (if truthy (setting_json s) then setting_json s else JBool false), st).
Proof.
  intros [Hup Hf] Hs. unfold Client.loadSettings.
  rewrite (apiCall_route _ _ _ Hup). unfold handle, getSettings, callback, stmt.
  rewrite Hf. cbn [fst snd status payload]. change (Client.ok 200) with true. cbv iota.
  now rewrite lookup_fmap, Hs.
Qed.

(** X20: the public results are gated by the page's own copy of the
    publication flag and by nothing else.  On a page whose copy is
    truthy, [displayPublicResults] shows the tally of every candidate
    with the number of votes on record as soon as there is a vote,
    whatever the server's [results_published] setting says at that
    moment; on a page whose copy is falsy it sends no request and shows
    that results are not published, again whatever the setting says. *)
Theorem public_results_follow_page_flag (w : Client.wire) (c : Client.state) (st : store) :
  Client.through w -> votes_refer st -> NoDup (map c_id (candidates st)) ->
  votes st ≠ [] ->
  (truthy (Client.resultsPublished c) = true ->
   exists a results,
     Client.displayPublicResults w c st
     = (st, Client.Final a results (Z.of_nat (length (votes st)))) /\
     map r_row results = Sql.select_results st) /\
  (truthy (Client.resultsPublished c) = false ->
   Client.displayPublicResults w c st = (st, Client.NotPublished)).
Proof.
  intros Hw Href Hnd Hvotes. split.
  - now apply display_final.
  - intros Hflag. unfold Client.displayPublicResults. now rewrite Hflag.
Qed.

Lemma public_results_follow_page_flag_witness :
  let published :=
    fst (setResultsPublished no_faults 2 (JBool true)
           (fst (castVote no_faults 1 (Some "Ann") (Some 1) (initialize 0 empty_store)))) in
  let page := fst (Client.loadSettings (Client.clear 3) Client.initial published) in
  let st := fst (castVote no_faults 5 (Some "Ben") (Some 2)
                   (fst (resetVotes no_faults published))) in
  Client.resultsPublished page = JBool true /\
  s_value <$> settings st !! "results_published" = Some "false" /\
  exists a results,
    Client.displayPublicResults (Client.clear 6) page st = (st, Client.Final a results 1) /\
    map r_row results = Sql.select_results st.
Proof.
  intros published page st. split; [reflexivity|]. split; [reflexivity|].
  assert (Href : votes_refer st).
  { constructor; [|constructor]. eexists. split; [right; left | reflexivity]. }
  assert (Hnd : NoDup (map c_id (candidates st))).
  { change (NoDup [1; 2; 3; 4]). apply (NoDup_seqZ 1 4). }
  exact (proj1 (public_results_follow_page_flag (Client.clear 6) page st
                  (through_clear 6) Href Hnd ltac:(discriminate)) eq_refl).
Defined.

(** X21: publishing from the page.  In administrator mode, with
    requests that go through, [publishResults] refuses to publish an
    election without votes and then sends no publish request.  With at
    least one vote and the confirmation given, it sets the server's
    [results_published] to true, touches no candidate and no vote, sets
    the page's flag, and switches to the public results, which show the
    tally with the number of votes on record; every page that then
    loads the settings gets a true flag.  Without the confirmation
    nothing changes. *)
Theorem publishResults_outcome (net : nat -> Client.wire) (c : Client.state) (st : store) :
  Client.isAdmin c = true ->
  (forall k, Client.through (net k)) ->
  has_publish_row st -> votes_refer st -> NoDup (map c_id (candidates st)) ->
  (votes st = [] ->
   forall confirmed,
     Client.publishResults confirmed net c st
     = (c, st, [Client.Alert "No votes to publish."], None)) /\
  (votes st ≠ [] ->
   Client.publishResults false net c st = (c, st, [], None) /\
   let st' := Sql.update_setting_at "results_published" "true"
                (Client.net_now (net 1%nat)) st in
   (exists a results,
      Client.publishResults true net c st
      = (Client.with_resultsPublished c (JBool true), st',
         [Client.Alert "Results published successfully!";
          Client.Show "public-results-section"],
         Some (Client.Final a results (Z.of_nat (length (votes st)))))) /\
   forall w page, Client.through w ->
     Client.loadSettings w page st' = (Client.with_resultsPublished page (JBool true), st')).
Proof.
  intros Hadmin Hnet Hrow Href Hnd.
  destruct (Hnet 0%nat) as [Hup0 Hf0]. destruct (Hnet 1%nat) as [Hup1 Hf1].
  destruct (summarize_results (Sql.select_results st))
    as (results & total & winner & tie & Hbody & Htotal & _).
  rewrite (select_results_total st Href Hnd) in Htotal. injection Htotal as <-.
  assert (Hfirst : forall confirmed,
            Client.publishResults confirmed net c st
            = if Z.of_nat (length (votes st)) =? 0
              then (c, st, [Client.Alert "No votes to publish."], None)
              else if confirmed
                   then
                     match Client.apiCall (Route (PostPublish (JBool true))) (net 1%nat) st with
                     | (st2, inl message) =>
                         (c, st2, [Client.Alert ("Failed to publish results: " +:+ message)],
                          None)
                     | (st2, inr _) =>
                         let c' := Client.with_resultsPublished c (JBool true) in
                         let '(st3, v) := Client.displayPublicResults (net 2%nat) c' st2 in
                         (c', st3,
                          [Client.Alert "Results published successfully!";
                           Client.Show "public-results-section"], Some v)
                     end
                   else (c, st, [], None)).
  { intros confirmed. unfold Client.publishResults. rewrite Hadmin. simpl negb. cbv iota.
    rewrite (apiCall_route _ _ _ Hup0). unfold handle.
    rewrite !(tally_body _ st (Hf0 0%nat)).
    cbn [fst snd status payload]. change (Client.ok 200) with true. cbv iota.
    rewrite Hbody. reflexivity. }
  split.
  - intros Hv confirmed. rewrite Hfirst, Hv. reflexivity.
  - intros Hv.
    assert (Hnz : (Z.of_nat (length (votes st)) =? 0) = false).
    { apply Z.eqb_neq. destruct (votes st); [contradiction | simpl; lia]. }
    split; [rewrite Hfirst, Hnz; reflexivity|].
    intros st'. split.
    + assert (Href' : votes_refer st') by exact Href.
      destruct (display_final (net 2%nat) (Client.with_resultsPublished c (JBool true)) st'
                  (Hnet 2%nat) Href' Hnd Hv eq_refl) as (a & res & Hshow & _).
      exists a, res. rewrite Hfirst, Hnz. cbv iota.
      rewrite (apiCall_route _ _ _ Hup1). unfold handle, setResultsPublished, callback, stmt.
      rewrite Hf1. cbn [fst snd status payload truthy].
      change (Client.ok 200) with true. cbv iota.
      fold st'. cbv zeta. rewrite Hshow. reflexivity.
    + intros w page Hw.
      rewrite (loadSettings_row w page st' (mkSetting "true" (Client.net_now (net 1%nat))) Hw);
        [reflexivity|].
      now apply update_setting_at_value.
Qed.

Lemma publishResults_outcome_witness :
  let st := fst (castVote no_faults 1 (Some "Ann") (Some 1) (initialize 0 empty_store)) in
  let net := fun _ : nat => Client.clear 2 in
  let admin := Client.with_isAdmin Client.initial true in
  Client.publishResults true net admin (initialize 0 empty_store)
  = (admin, initialize 0 empty_store, [Client.Alert "No votes to publish."], None) /\
  exists a results,
    Client.publishResults true net admin st
    = (Client.with_resultsPublished admin (JBool true),
       Sql.update_setting_at "results_published" "true" 2 st,
       [Client.Alert "Results published successfully!";
        Client.Show "public-results-section"],
       Some (Client.Final a results 1)).
Proof.
  intros st net admin.
  assert (Hnet : forall k, Client.through (net k)) by (intros k; apply through_clear).
  split.
  - apply (publishResults_outcome net admin (initialize 0 empty_store) eq_refl Hnet).
    + apply initialize_publish_row.
    + constructor.
    + change (NoDup [1; 2; 3; 4]). apply (NoDup_seqZ 1 4).
    + reflexivity.
  - assert (Href : votes_refer st).
    { constructor; [|constructor]. eexists. split; [left | reflexivity]. }
    assert (Hnd : NoDup (map c_id (candidates st))).
    { change (NoDup [1; 2; 3; 4]). apply (NoDup_seqZ 1 4). }
    assert (Hrow : has_publish_row st) by (eexists; reflexivity).
    exact (proj1 (proj2 (proj2 (publishResults_outcome net admin st eq_refl Hnet Hrow Href Hnd)
                           ltac:(discriminate)))).
Defined.

(** X22: resetting from the page.  In administrator mode, with
    requests that go through and the confirmation given, [resetVotes]
    leaves the server without votes, with its candidates, and with
    [results_published] false; the page's flag is cleared too, and
    every page that then loads the settings gets a false flag and is
    shown that results are not published.  Without the confirmation
    nothing changes. *)
Theorem resetVotes_unpublishes (net : nat -> Client.wire) (c : Client.state) (st : store) :
  Client.isAdmin c = true ->
  (forall k, Client.through (net k)) ->
  has_publish_row st ->
  Client.resetVotes false net c st = (c, st, []) /\
  exists st',
    Client.resetVotes true net c st
    = (Client.with_resultsPublished c (JBool false), st',
       [Client.Alert "All votes have been reset successfully."]) /\
    votes st' = [] /\ candidates st' = candidates st /\
    forall w page, Client.through w ->
      Client.loadSettings w page st' = (Client.with_resultsPublished page (JBool false), st') /\
      forall w', Client.displayPublicResults w'
                   (Client.with_resultsPublished page (JBool false)) st'
                 = (st', Client.NotPublished).
Proof.
  intros Hadmin Hnet Hrow. destruct (Hnet 0%nat) as [Hup0 Hf0].
  split; [unfold Client.resetVotes; now rewrite Hadmin|].
  eexists. split.
  - unfold Client.resetVotes. rewrite Hadmin. simpl negb. cbv iota.
    rewrite (apiCall_route _ _ _ Hup0). unfold handle, resetVotes, callback, stmt.
    rewrite !Hf0. cbn [fst snd status payload Sql.delete_votes].
    change (Client.ok 200) with true. cbv iota.
    rewrite updateAdminDashboard_store. reflexivity.
  - split; [reflexivity|]. split; [reflexivity|].
    intros w page Hw. split; [|reflexivity].
    destruct Hrow as [s Hs].
    rewrite (loadSettings_row w page _ (mkSetting "false" (s_updated_at s)) Hw);
      [reflexivity|].
    unfold Sql.update_setting. simpl. now rewrite lookup_alter_eq, Hs.
Qed.

Lemma resetVotes_unpublishes_witness :
  let st := fst (setResultsPublished no_faults 2 (JBool true)
                   (fst (castVote no_faults 1 (Some "Ann") (Some 1)
                           (initialize 0 empty_store)))) in
  let net := fun _ : nat => Client.clear 3 in
  let admin := Client.with_isAdmin Client.initial true in
  Client.resetVotes false net admin st = (admin, st, []) /\
  exists st',
    Client.resetVotes true net admin st
    = (Client.with_resultsPublished admin (JBool false), st',
       [Client.Alert "All votes have been reset successfully."]) /\
    votes st' = [].
Proof.
  intros st net admin.
  assert (Hnet : forall k, Client.through (net k)) by (intros k; apply through_clear).
  assert (Hrow : has_publish_row st) by (eexists; reflexivity).
  destruct (resetVotes_unpublishes net admin st eq_refl Hnet Hrow)
    as (Hno & st' & Hyes & Hvotes & _).
  split; [exact Hno|]. exists st'. now split.
Defined.
